(** * Verification of the zhihu-download batch pipeline

    A shallow embedding of [pages_to_urls.py] (URL extraction, [normalize],
    per-category de-duplication) and of [batch_download.py]
    ([get_article_id], [article_exists], [process_single_url],
    [process_urls], [main]).

    Python [str] values are modelled as [string]; only the ASCII range is
    modelled, so [str.strip] removes exactly the ASCII characters for which
    Python's [str.isspace] holds. *)

From Stdlib Require Import String Ascii List Bool Arith Lia ZArith Permutation Sorted.
Import ListNotations.
Open Scope string_scope.
Open Scope list_scope.

Local Notation "s1 +s+ s2" := (String.append s1 s2) (at level 60, right associativity).

(* ------------------------------------------------------------------ *)
(** ** Python string primitives *)

(** [c.isspace()] on the ASCII range: \t \n \v \f \r, \x1c-\x1f and space. *)
Definition is_space (c : ascii) : bool :=
  let n := N_of_ascii c in
  ((9 <=? n)%N && (n <=? 13)%N) || ((28 <=? n)%N && (n <=? 32)%N).

Fixpoint lstrip (s : string) : string :=
  match s with
  | EmptyString => EmptyString
  | String c s' => if is_space c then lstrip s' else s
  end.

Fixpoint rstrip (s : string) : string :=
  match s with
  | EmptyString => EmptyString
  | String c s' =>
      let r := rstrip s' in
      if is_space c && String.eqb r EmptyString then EmptyString else String c r
  end.

(** [s.strip()] *)
Definition strip (s : string) : string := rstrip (lstrip s).

(** [s.startswith(p)] *)
Definition startswith (s p : string) : bool := String.prefix p s.

(** [needle in hay] for strings *)
Fixpoint contains (needle hay : string) : bool :=
  String.prefix needle hay ||
  match hay with
  | EmptyString => false
  | String _ hay' => contains needle hay'
  end.

(** [s.split(sep)] for a non-empty [sep]: a left-to-right scan that cuts at
    each non-overlapping occurrence of [sep]; [skip] counts the characters
    of the current occurrence still to be dropped, [cur] is the piece being
    built. *)
Fixpoint split_go (sep s : string) (skip : nat) (cur : string) : list string :=
  match s with
  | EmptyString => [cur]
  | String c s' =>
      match skip with
      | S k => split_go sep s' k cur
      | O =>
          if String.prefix sep s
          then cur :: split_go sep s' (pred (String.length sep)) EmptyString
          else split_go sep s' 0 (cur +s+ String c EmptyString)
      end
  end.

Definition py_split (sep s : string) : list string := split_go sep s 0 EmptyString.

(** [xs[-1]] and [xs[0]] on the (never empty) result of [split]. *)
Definition last_piece (xs : list string) : string := List.last xs EmptyString.
Definition first_piece (xs : list string) : string := List.hd EmptyString xs.

(** [os.path.join(a, b)] for a relative [b]. *)
Definition path_join (a b : string) : string :=
  if String.eqb a EmptyString then b
  else if String.eqb (String.substring (pred (String.length a)) 1 a) "/"
  then a +s+ b
  else a +s+ "/" +s+ b.

(** [Path(a) / b] for one file-name component [b]: pathlib drops a [.]
    component, otherwise it joins as [os.path.join]. *)
Definition path_div (a b : string) : string :=
  if String.eqb b "." then a else path_join a b.

(* ------------------------------------------------------------------ *)
(** ** pages_to_urls.py: [normalize] *)

(** [normalize(raw)]: strip, then prefix [https:] to a protocol-relative URL. *)
Definition normalize (raw : string) : string :=
  let raw := strip raw in
  if startswith raw "//" then "https:" +s+ raw else raw.

(* ------------------------------------------------------------------ *)
(** ** batch_download.py: [get_article_id] *)

Definition id_after (marker url : string) : string :=
  first_piece (py_split "/" (last_piece (py_split marker url))).

(** [get_article_id(url)]; [None] is Python's [None]. *)
Definition get_article_id (url : string) : option string :=
  if contains "zhuanlan.zhihu.com/p/" url then Some (id_after "zhuanlan.zhihu.com/p/" url)
  else if contains "question" url && contains "answer" url then Some (id_after "answer/" url)
  else if contains "zvideo" url then Some (id_after "zvideo/" url)
  else if contains "column" url then Some (id_after "column/" url)
  else None.

(* ------------------------------------------------------------------ *)
(** ** batch_download.py: [article_exists] over [os.walk] *)

(** A directory entry as [os.scandir] sees it (no symbolic links). *)
#[warnings="-register-all"]
Inductive entry : Type :=
| File (name : string)
| Dir (name : string) (children : list entry).

(** The [root] values that [os.walk] yields for an entry [e] of the
    directory [top]: a sub-directory first, then its own walk, top-down. *)
Fixpoint walk_entry (top : string) (e : entry) : list string :=
  match e with
  | File _ => []
  | Dir n ch => let p := path_join top n in p :: flat_map (walk_entry p) ch
  end.

Definition walk_sub (top : string) (es : list entry) : list string :=
  flat_map (walk_entry top) es.

(** All [root] values of [os.walk(top)] for an existing directory [top]. *)
Definition os_walk_roots (top : string) (es : list entry) : list string :=
  top :: walk_sub top es.

(** [article_exists(article_id, output_dir)]: only [root] is tested. *)
Definition article_exists (article_id output_dir : string) (es : list entry) : bool :=
  existsb (fun root => contains article_id root) (os_walk_roots output_dir es).

(* ------------------------------------------------------------------ *)
(** ** Exceptions, observable events and the program monad *)

(** Python exceptions: [except Exception] catches [KException] only;
    [SystemExit] and [KeyboardInterrupt] derive from [BaseException]. *)
Inductive exn_kind : Type :=
| KException (cls : string)
| KSystemExit (code : Z)
| KKeyboardInterrupt.

Record exn : Type := mk_exn { exn_kind_of : exn_kind; exn_str : string }.

Definition is_Exception (e : exn) : bool :=
  match exn_kind_of e with KException _ => true | _ => false end.

(** Observable events: a worker starting on a URL, and the two calls made
    to the fetch unit. *)
Inductive event : Type :=
| EvProcess (url : string)
| EvParserInit (cookies temp_dir output_dir : string)
| EvJudgeType (url : string).

Inductive res (A : Type) : Type :=
| Ok (a : A)
| Raise (e : exn).
Arguments Ok {A} a.
Arguments Raise {A} e.

(** A computation threads the event trace and may raise. *)
Definition M (A : Type) : Type := list event -> res A * list event.

Definition ret {A} (a : A) : M A := fun tr => (Ok a, tr).

Definition bind {A B} (m : M A) (k : A -> M B) : M B :=
  fun tr => match m tr with
            | (Ok a, tr') => k a tr'
            | (Raise e, tr') => (Raise e, tr')
            end.

Definition raise {A} (e : exn) : M A := fun tr => (Raise e, tr).

Definition emit (ev : event) : M unit := fun tr => (Ok tt, tr ++ [ev]).

(** [try: m  except Exception as e: h e] *)
Definition try_except {A} (m : M A) (h : exn -> M A) : M A :=
  fun tr => match m tr with
            | (Raise e, tr') => if is_Exception e then h e tr' else (Raise e, tr')
            | r => r
            end.

Notation "x <- m ;; k" := (bind m (fun x => k)) (at level 61, m at next level, right associativity).
Notation "m ;;; k" := (bind m (fun _ => k)) (at level 61, right associativity).

(** [sys.exit(n)] *)
Definition sys_exit_exn (n : Z) : exn := mk_exn (KSystemExit n) "1".
Definition sys_exit {A} (n : Z) : M A := raise (sys_exit_exn n).

(** Exit status of the interpreter for the result of the main program. *)
Definition exit_status {A} (r : res A) : Z :=
  match r with
  | Ok _ => 0
  | Raise e => match exn_kind_of e with KSystemExit n => n | _ => 1 end
  end.

(* ------------------------------------------------------------------ *)
(** ** The fetch unit *)

(** Modelled from the spec: the fetch unit [ZhihuParser] of module
    [main_zhihu] (not in src/). Constructing it takes the credential, the
    temporary directory and the output directory; [judge_type(url)] does the
    fetch. Each step either completes or fails by raising an exception
    ([Some e]); nothing more is assumed about it. *)
Record fetch_unit : Type := {
  zp_init : string -> string -> string -> option exn;
  zp_judge_type : string -> option exn
}.

Definition TEMP_DIR : string := "zhihu/temp_zips".
Definition EXTRACTED_DIR : string := "zhihu/markdown".
Definition URLS_DIR : string := "zhihu/urls".

Section Batch.

Variable fu : fetch_unit.

(** [ZhihuParser(cookies=..., keep_logs=False, temp_dir=..., output_dir=...)] *)
Definition ZhihuParser (cookies temp_dir output_dir : string) : M unit :=
  emit (EvParserInit cookies temp_dir output_dir) ;;;
  match zp_init fu cookies temp_dir output_dir with
  | None => ret tt
  | Some e => raise e
  end.

(** [parser.judge_type(url)] *)
Definition judge_type (url : string) : M unit :=
  emit (EvJudgeType url) ;;;
  match zp_judge_type fu url with
  | None => ret tt
  | Some e => raise e
  end.

(** [process_single_url(url, cookies, output_dir)]; [es] is the content of
    [output_dir] as the worker sees it. The result is the tuple
    [(url, success, error)]. *)
Definition process_single_url (url cookies output_dir : string) (es : list entry)
  : M (string * bool * option string) :=
  emit (EvProcess url) ;;;
  match get_article_id url with
  | None => ret (url, false, Some "Invalid URL format")
  | Some article_id =>
      (* [if not article_id]: [None] and [""] are falsy *)
      if String.eqb article_id EmptyString
      then ret (url, false, Some "Invalid URL format")
      else if article_exists article_id output_dir es
      then ret (url, true, Some "Article already exists")
      else
        ZhihuParser cookies TEMP_DIR output_dir ;;;
        try_except (judge_type url ;;; ret (url, true, None))
                   (fun e => ret (url, false, Some (exn_str e)))
  end.

(** The counters and the failure list of [process_urls]. *)
Record tally : Type := mk_tally {
  success_count : nat;
  failure_count : nat;
  skipped_count : nat;
  failed_urls : list (string * option string)
}.

Definition tally0 : tally := mk_tally 0 0 0 [].

(** [error == s] for an [Optional[str]] [error] *)
Definition opt_str_eqb (error : option string) (s : string) : bool :=
  match error with Some e => String.eqb e s | None => false end.

(** One iteration of [for url, success, error in tasks]. *)
Definition tally_step (t : tally) (r : string * bool * option string) : tally :=
  let '(url, success, error) := r in
  if success then
    if opt_str_eqb error "Article already exists"
    then mk_tally (success_count t) (failure_count t) (S (skipped_count t)) (failed_urls t)
    else mk_tally (S (success_count t)) (failure_count t) (skipped_count t) (failed_urls t)
  else mk_tally (success_count t) (S (failure_count t)) (skipped_count t)
                (failed_urls t ++ [(url, error)]).

(** Iterating over [imap_unordered]: a task that raised an exception
    deriving from [Exception] re-raises it in the parent when its result is
    reached. A task that raised any other exception ([SystemExit],
    [KeyboardInterrupt]) kills its worker, its result never arrives and the
    real iteration blocks for ever; the model stops with [Raise] there too,
    so for such an exception [Raise] only means that [process_urls] does not
    return normally. *)
Fixpoint consume (t : tally) (rs : list (res (string * bool * option string))) : res tally :=
  match rs with
  | [] => Ok t
  | Ok r :: rs' => consume (tally_step t r) rs'
  | Raise e :: _ => Raise e
  end.

(** [process_urls(urls, cookies, output_dir)]. The pool runs each URL in a
    worker of its own; [sched urls] is the order in which the results
    complete, and [snap url] the content of [output_dir] seen by the worker
    handling [url]. *)
Definition process_urls (sched : list string -> list string) (snap : string -> list entry)
    (urls : list string) (cookies output_dir : string) : M tally :=
  fun tr =>
    let runs := map (fun u => process_single_url u cookies output_dir (snap u) []) (sched urls) in
    (consume tally0 (map fst runs), tr ++ concat (map snd runs)).

End Batch.

(* ------------------------------------------------------------------ *)
(** ** batch_download.py: [main] *)

(** What [main] reads from the file system: the cookies file ([None] when
    [os.path.exists] fails, else its text) and the [.txt] files of
    [URLS_DIR] in [glob] order, each with its lines. Only files that can be
    opened and decoded as UTF-8 are modelled: an [OSError] or
    [UnicodeDecodeError] of [open]/[read] is not. *)
Record env : Type := mk_env {
  cookies_file : option string;
  url_files : list (string * list string)
}.

(** [read_cookies_from_file(COOKIES_FILE)] *)
Definition read_cookies_from_file (f : option string) : M string :=
  match f with
  | None => sys_exit 1
  | Some content =>
      let cookies := strip content in
      if String.eqb cookies EmptyString then sys_exit 1 else ret cookies
  end.

(** [read_urls_from_file(file_path)] on the lines of the file. *)
Definition read_urls_from_file (lines : list string) : list string :=
  map strip (filter (fun line => negb (String.eqb (strip line) EmptyString)) lines).

(** [Path(name).stem] for a name matched by [*.txt]. *)
Definition txt_stem (name : string) : string :=
  let n := String.length name in
  if (4 <? n)%nat && String.eqb (String.substring (n - 4)%nat 4 name) ".txt"
  then String.substring 0 (n - 4)%nat name else name.

Section Main.

Variable fu : fetch_unit.
Variable sched : list string -> list string.
(** [snap out url]: content of the output directory [out] seen by the worker
    handling [url]. *)
Variable snap : string -> string -> list entry.

(** [process_url_file(url_file, cookies)]; printing is not modelled. *)
Definition process_url_file (url_file : string * list string) (cookies : string)
  : M (nat * nat * nat) :=
  let output_dir := path_div EXTRACTED_DIR (txt_stem (fst url_file)) in
  let urls := read_urls_from_file (snd url_file) in
  t <- process_urls fu sched (snap output_dir) urls cookies output_dir ;;
  ret (success_count t, failure_count t, skipped_count t).

Fixpoint process_all (files : list (string * list string)) (cookies : string)
    (tot : nat * nat * nat) : M (nat * nat * nat) :=
  match files with
  | [] => ret tot
  | f :: rest =>
      r <- process_url_file f cookies ;;
      let '(s, fl, k) := r in
      let '(ts, tf, tk) := tot in
      process_all rest cookies (ts + s, tf + fl, tk + k)
  end.

(** [main()]; [setup_directories] and [cleanup_temp_files] only create and
    empty directories and are not modelled. Returns the grand totals
    [(success, failure, skipped)] that [main] prints. *)
Definition main (e : env) : M (nat * nat * nat) :=
  cookies <- read_cookies_from_file (cookies_file e) ;;
  match url_files e with
  | [] => sys_exit 1
  | files => process_all files cookies (0, 0, 0)
  end.

End Main.

(* ------------------------------------------------------------------ *)
(** ** pages_to_urls.py: the parsed document and [extract_urls_from_soup] *)

Definition attrs : Type := list (string * string).

(** A parsed HTML node: text (any [NavigableString]), comment, or element
    with its tag name and attribute dictionary. *)
#[warnings="-register-all"]
Inductive node : Type :=
| NText (s : string)
| NComment (s : string)
| NElem (name : string) (attributes : attrs) (children : list node).

(** [tag.get(key)] *)
Fixpoint attr_get (key : string) (a : attrs) : option string :=
  match a with
  | [] => None
  | (k, v) :: rest => if String.eqb k key then Some v else attr_get key rest
  end.

(** [tag.get(key, default)] *)
Definition attr_get_default (key default : string) (a : attrs) : string :=
  match attr_get key a with Some v => v | None => default end.

(** What the loop body needs of a tag: its name, its attributes and its next
    sibling after skipping strings and comments ([None] when there is none). *)
Record tag_view : Type := mk_tag {
  tag_name : string;
  tag_attrs : attrs;
  tag_next : option (string * attrs)
}.

(** [sib = tag.next_sibling; while isinstance(sib, (NavigableString, Comment)): ...] *)
Fixpoint next_tag_sibling (after : list node) : option (string * attrs) :=
  match after with
  | [] => None
  | NElem n a _ :: _ => Some (n, a)
  | _ :: rest => next_tag_sibling rest
  end.

(** [find_all(True)] below a node whose later siblings are known through
    [next]: the element itself, then its descendants, in document order. *)
Fixpoint find_all_node (n : node) (next : option (string * attrs)) : list tag_view :=
  match n with
  | NElem nm a ch =>
      mk_tag nm a next ::
      (fix go (l : list node) : list tag_view :=
         match l with
         | [] => []
         | x :: xs => find_all_node x (next_tag_sibling xs) ++ go xs
         end) ch
  | _ => []
  end.

(** [soup.find_all(True)] for a document given by its top-level nodes. *)
Fixpoint find_all (doc : list node) : list tag_view :=
  match doc with
  | [] => []
  | x :: xs => find_all_node x (next_tag_sibling xs) ++ find_all xs
  end.

(** The URL a tag contributes before de-duplication, if any: case 1
    ([meta itemprop=url] followed by [meta itemprop=datePublished] or
    [dateModified]) or case 2 ([a target=_blank] title link). *)
Definition tag_url (tag : tag_view) : option string :=
  if String.eqb (tag_name tag) "meta" && opt_str_eqb (attr_get "itemprop" (tag_attrs tag)) "url"
  then
    let raw := strip (attr_get_default "content" "" (tag_attrs tag)) in
    if String.eqb raw EmptyString then None
    else match tag_next tag with
         | Some (sname, sattrs) =>
             if String.eqb sname "meta" &&
                (opt_str_eqb (attr_get "itemprop" sattrs) "datePublished" ||
                 opt_str_eqb (attr_get "itemprop" sattrs) "dateModified")
             then Some (normalize raw) else None
         | None => None
         end
  else if String.eqb (tag_name tag) "a" &&
          opt_str_eqb (attr_get "target" (tag_attrs tag)) "_blank" &&
          opt_str_eqb (attr_get "data-za-detail-view-element_name" (tag_attrs tag)) "Title"
  then
    let raw := strip (attr_get_default "href" "" (tag_attrs tag)) in
    if String.eqb raw EmptyString then None else Some (normalize raw)
  else None.

(** [url in seen] *)
Definition mem (url : string) (seen : list string) : bool :=
  existsb (String.eqb url) seen.

(** The loop of [extract_urls_from_soup]: [seen] is the shared set,
    [out] the list built so far. *)
Fixpoint extract_loop (tags : list tag_view) (seen out : list string)
  : list string * list string :=
  match tags with
  | [] => (out, seen)
  | tag :: tags' =>
      match tag_url tag with
      | Some url =>
          if mem url seen then extract_loop tags' seen out
          else extract_loop tags' (url :: seen) (out ++ [url])
      | None => extract_loop tags' seen out
      end
  end.

(** [extract_urls_from_soup(soup, seen)]: returns [out] and the updated
    [seen] (mutated in place by the source). *)
Definition extract_urls_from_soup (doc : list node) (seen : list string)
  : list string * list string :=
  extract_loop (find_all doc) seen [].

(** [fn.lower()] on ASCII *)
Definition lower_char (c : ascii) : ascii :=
  let n := N_of_ascii c in
  if ((65 <=? n)%N && (n <=? 90)%N) then ascii_of_N (n + 32) else c.

Fixpoint lower (s : string) : string :=
  match s with
  | EmptyString => EmptyString
  | String c s' => String (lower_char c) (lower s')
  end.

(** [s.endswith(p)] *)
Definition endswith (s p : string) : bool :=
  let n := String.length s in
  let k := String.length p in
  (k <=? n)%nat && String.eqb (String.substring (n - k)%nat k s) p.

(** [sorted(...)] of file names: a stable insertion sort on code points. *)
Fixpoint insert_name {A} (x : string * A) (l : list (string * A)) : list (string * A) :=
  match l with
  | [] => [x]
  | y :: ys => if String.leb (fst x) (fst y) then x :: y :: ys else y :: insert_name x ys
  end.

Definition sort_names {A} (l : list (string * A)) : list (string * A) :=
  fold_right insert_name [] l.

(** The [.html] files of a category directory in processing order. *)
Definition html_files (files : list (string * list node)) : list (string * list node) :=
  sort_names (filter (fun f => endswith (lower (fst f)) ".html") files).

Fixpoint process_docs (docs : list (list node)) (seen merged : list string) : list string :=
  match docs with
  | [] => merged
  | d :: ds =>
      let '(result, seen') := extract_urls_from_soup d seen in
      process_docs ds seen' (merged ++ result)
  end.

(** The list [merged] that [main] writes to [urls/<category>.txt] for a
    category directory whose entries are [files] (name, parsed document):
    [seen] and [merged] start empty for each category. *)
Definition category_urls (files : list (string * list node)) : list string :=
  process_docs (map snd (html_files files)) [] [].

(* ------------------------------------------------------------------ *)
(** ** Auxiliary views used in the statements *)

(** Names of all directories at any depth below a directory. *)
Fixpoint dir_names_entry (e : entry) : list string :=
  match e with
  | File _ => []
  | Dir n ch => n :: flat_map dir_names_entry ch
  end.

Definition dir_names (es : list entry) : list string := flat_map dir_names_entry es.

(** Names of all entries (files and directories) at any depth: what the
    spec's [alreadyFetched] inspects. *)
Fixpoint all_names_entry (e : entry) : list string :=
  match e with
  | File n => [n]
  | Dir n ch => n :: flat_map all_names_entry ch
  end.

Definition all_names (es : list entry) : list string := flat_map all_names_entry es.

(** Induction over directory trees, with a hypothesis for every child. *)
Fixpoint entry_ind' (P : entry -> Prop) (HF : forall f, P (File f))
    (HD : forall n ch, Forall P ch -> P (Dir n ch)) (e : entry) : P e :=
  match e with
  | File f => HF f
  | Dir n ch =>
      HD n ch ((fix go (l : list entry) : Forall P l :=
                  match l with
                  | [] => Forall_nil P
                  | x :: xs => Forall_cons x (entry_ind' P HF HD x) (go xs)
                  end) ch)
  end.

(** The spec's reading of the idempotency check. *)
Definition already_fetched_spec (identifier : string) (es : list entry) : Prop :=
  exists nm, In nm (all_names es) /\ contains identifier nm = true.

(** The URLs a document offers in tag order, before de-duplication. *)
Definition doc_stream (doc : list node) : list string :=
  flat_map (fun tag => match tag_url tag with Some u => [u] | None => [] end) (find_all doc).

(** First occurrences of a list, in order: each element is kept and its
    later copies removed. *)
Fixpoint first_occ (l : list string) : list string :=
  match l with
  | [] => []
  | x :: xs => x :: remove string_dec x (first_occ xs)
  end.

(** The URLs a list of tags offers, before de-duplication. *)
Definition tag_stream (tags : list tag_view) : list string :=
  flat_map (fun tag => match tag_url tag with Some u => [u] | None => [] end) tags.

(** De-duplication of a URL stream against a growing set [seen]. *)
Fixpoint dedup_seen (seen : list string) (l : list string) : list string :=
  match l with
  | [] => []
  | x :: xs => if mem x seen then dedup_seen seen xs else x :: dedup_seen (x :: seen) xs
  end.

(** The marker after which [get_article_id] cuts, for the branch it takes. *)
Definition branch_marker (url : string) : option string :=
  if contains "zhuanlan.zhihu.com/p/" url then Some "zhuanlan.zhihu.com/p/"
  else if contains "question" url && contains "answer" url then Some "answer/"
  else if contains "zvideo" url then Some "zvideo/"
  else if contains "column" url then Some "column/"
  else None.

Definition is_digit (c : ascii) : bool :=
  let n := N_of_ascii c in (48 <=? n)%N && (n <=? 57)%N.

Fixpoint all_digits (s : string) : bool :=
  match s with
  | EmptyString => true
  | String c s' => is_digit c && all_digits s'
  end.

(** Every proper non-empty suffix of [s] fails to be a prefix of [sep]. *)
Fixpoint suffixes_ok (sep s : string) : bool :=
  match s with
  | EmptyString => true
  | String _ s' => (String.eqb s' EmptyString || negb (String.prefix s' sep)) && suffixes_ok sep s'
  end.

(** Whether a trace contains a call to the fetch unit. *)
Definition fetch_invoked (tr : list event) : bool :=
  existsb (fun ev => match ev with EvProcess _ => false | _ => true end) tr.

(* ------------------------------------------------------------------ *)
(** ** Text files: what [open(..., 'w')] writes and [for line in f] reads *)

(** Universal newlines of text-mode reading: ["\r\n"] and a lone ["\r"]
    both become ["\n"]. *)
Fixpoint univ_newlines (s : string) : string :=
  match s with
  | EmptyString => EmptyString
  | String c s' =>
      if Ascii.eqb c "013"%char then
        match s' with
        | String d s'' =>
            if Ascii.eqb d "010"%char then String "010"%char (univ_newlines s'')
            else String "010"%char (univ_newlines s')
        | EmptyString => String "010"%char EmptyString
        end
      else String c (univ_newlines s')
  end.

(** The lines [for line in f] yields, each with its ["\n"] (the last one
    without it when the text does not end in a newline). *)
Fixpoint lines_go (s cur : string) : list string :=
  match s with
  | EmptyString => if String.eqb cur EmptyString then [] else [cur]
  | String c s' =>
      if Ascii.eqb c "010"%char
      then (cur +s+ String c EmptyString) :: lines_go s' EmptyString
      else lines_go s' (cur +s+ String c EmptyString)
  end.

Definition file_lines (content : string) : list string :=
  lines_go (univ_newlines content) EmptyString.

(** The text [for url in merged: out.write(url + "\n")] writes. *)
Fixpoint write_urls (urls : list string) : string :=
  match urls with
  | [] => EmptyString
  | u :: us => u +s+ String "010"%char EmptyString +s+ write_urls us
  end.

(* ------------------------------------------------------------------ *)
(** ** pages_to_urls.py: [main] *)

Module PagesToUrls.

(** An entry of a category directory: a file, given by its parsed document,
    or a sub-directory. Files are taken to be readable UTF-8: an [OSError]
    or [UnicodeDecodeError] of [open]/parsing is not modelled. *)
#[warnings="-register-all"]
Inductive cat_item : Type :=
| CFile (name : string) (doc : list node)
| CSub (name : string).

(** An entry of the input directory: a plain file or a category directory. *)
#[warnings="-register-all"]
Inductive top_item : Type :=
| TFile (name : string)
| TCat (name : string) (items : list cat_item).

Definition cat_item_name (i : cat_item) : string :=
  match i with CFile n _ => n | CSub n => n end.

Definition top_item_name (i : top_item) : string :=
  match i with TFile n => n | TCat n _ => n end.

(** [open(full)] on a directory. *)
Definition IsADirectoryError (full : string) : exn :=
  mk_exn (KException "IsADirectoryError") ("[Errno 21] Is a directory: '" +s+ full +s+ "'").

(** [for fn in sorted(...): full = ...; soup = ...; result = ...; merged += result] *)
Fixpoint category_loop (cat_path : string) (fs : list (string * cat_item))
    (seen merged : list string) : res (list string) :=
  match fs with
  | [] => Ok merged
  | (fn, CSub _) :: _ => Raise (IsADirectoryError (path_join cat_path fn))
  | (_, CFile _ doc) :: rest =>
      let '(result, seen') := extract_urls_from_soup doc seen in
      category_loop cat_path rest seen' (merged ++ result)
  end.

(** The URL list of one category directory, [seen] and [merged] fresh. *)
Definition process_category (cat_path : string) (items : list cat_item) : res (list string) :=
  category_loop cat_path
    (sort_names (filter (fun f => endswith (lower (fst f)) ".html")
                        (map (fun i => (cat_item_name i, i)) items)))
    [] [].

(** [for category in sorted(os.listdir(input_dir)): ...]; [written] lists the
    files written so far, as (path, text). *)
Fixpoint category_files (input_dir output_dir : string) (cats : list (string * top_item))
    (written : list (string * string)) : res unit * list (string * string) :=
  match cats with
  | [] => (Ok tt, written)
  | (_, TFile _) :: rest => category_files input_dir output_dir rest written
  | (category, TCat _ items) :: rest =>
      match process_category (path_join input_dir category) items with
      | Raise e => (Raise e, written)
      | Ok merged =>
          category_files input_dir output_dir rest
            (written ++ [(path_join output_dir (category +s+ ".txt"), write_urls merged)])
      end
  end.

(** [main(input_dir, output_dir)]; [input] is the input directory ([None]
    when [os.path.isdir] fails). [os.makedirs(output_dir)] and printing are
    not modelled, nor the [OSError] that [os.listdir], [os.makedirs] or
    opening an output file may raise: the model describes runs in which
    those succeed. *)
Definition main (input_dir output_dir : string) (input : option (list top_item))
  : res unit * list (string * string) :=
  match input with
  | None =>
      (Raise (mk_exn (KSystemExit 1)
                ("Error: input directory '" +s+ input_dir +s+
                 "' not found. Create it and put your category subfolders inside.")),
       [])
  | Some items =>
      category_files input_dir output_dir
        (sort_names (map (fun i => (top_item_name i, i)) items)) []
  end.

(** Names of the category directories of the input directory. *)
Definition category_names (items : list top_item) : list string :=
  flat_map (fun i => match i with TCat n _ => [n] | TFile _ => [] end) items.

End PagesToUrls.

(* ------------------------------------------------------------------ *)
(** ** Further auxiliary views *)

(** A document with every text and comment node removed, at any depth. *)
Fixpoint drop_text_node (x : node) : list node :=
  match x with
  | NElem n a ch => [NElem n a (flat_map drop_text_node ch)]
  | _ => []
  end.

Definition drop_text (l : list node) : list node := flat_map drop_text_node l.

(** Induction over document nodes, with a hypothesis for every child. *)
Fixpoint node_ind' (P : node -> Prop) (HT : forall s, P (NText s))
    (HC : forall s, P (NComment s))
    (HE : forall n a ch, Forall P ch -> P (NElem n a ch)) (x : node) : P x :=
  match x with
  | NText s => HT s
  | NComment s => HC s
  | NElem n a ch =>
      HE n a ch ((fix go (l : list node) : Forall P l :=
                    match l with
                    | [] => Forall_nil P
                    | y :: ys => Forall_cons y (node_ind' P HT HC HE y) (go ys)
                    end) ch)
  end.

(** Whether a string holds a line break that text-mode reading splits at. *)
Fixpoint has_newline (s : string) : bool :=
  match s with
  | EmptyString => false
  | String c s' => Ascii.eqb c "010"%char || Ascii.eqb c "013"%char || has_newline s'
  end.

(** The outcome classes [process_urls] counts. *)
Definition is_skipped (r : string * bool * option string) : bool :=
  let '(_, success, error) := r in success && opt_str_eqb error "Article already exists".
Definition is_success (r : string * bool * option string) : bool :=
  let '(_, success, error) := r in success && negb (opt_str_eqb error "Article already exists").
Definition is_failure (r : string * bool * option string) : bool :=
  let '(_, success, _) := r in negb success.

(* ================================================================== *)
(** * Proofs *)

(** ** Strings *)

Lemma append_nil_r (s : string) : s +s+ EmptyString = s.
Proof. induction s as [|c s IH]; simpl; [reflexivity | now rewrite IH]. Qed.

Lemma append_assoc_s (a b c : string) : (a +s+ b) +s+ c = a +s+ (b +s+ c).
Proof. induction a as [|x a IH]; simpl; [reflexivity | now rewrite IH]. Qed.

Lemma contains_empty_hay (n : string) :
  contains n EmptyString = String.eqb n EmptyString.
Proof. destruct n; reflexivity. Qed.

Lemma prefix_nil (s : string) : String.prefix EmptyString s = true.
Proof. destruct s; reflexivity. Qed.

Lemma no_slash_cons (c : ascii) (n : string) :
  contains "/" (String c n) = false -> c <> "/"%char /\ contains "/" n = false.
Proof.
  cbn [contains String.prefix].
  destruct (ascii_dec "/"%char c) as [E|E]; cbn [String.prefix orb].
  - rewrite prefix_nil. intros H. discriminate H.
  - intros H. split; [intros ->; now apply E | exact H].
Qed.

(** A needle without ['/'] cannot be a prefix that runs through a ['/']. *)
Lemma prefix_through_slash (n x b : string) :
  contains "/" n = false ->
  String.prefix n (x +s+ String "/" b) = String.prefix n x.
Proof.
  revert n. induction x as [|c x IH]; intros n Hn.
  - destruct n as [|d n]; [reflexivity|].
    apply no_slash_cons in Hn as [Hd _]. cbn [String.append String.prefix].
    destruct (ascii_dec d "/"%char); [congruence | reflexivity].
  - destruct n as [|d n]; [reflexivity|].
    apply no_slash_cons in Hn as [_ Hn]. cbn [String.append String.prefix].
    destruct (ascii_dec d c); [now apply IH | reflexivity].
Qed.

(** An occurrence of a needle without ['/'] lies on one side of a ['/']. *)
Lemma contains_through_slash (n a b : string) :
  contains "/" n = false ->
  contains n (a +s+ String "/" b) = contains n a || contains n b.
Proof.
  intros Hn. induction a as [|c a IH].
  - pose proof (prefix_through_slash n EmptyString b Hn) as P.
    cbn [String.append contains] in P |- *. rewrite P.
    destruct (String.prefix n EmptyString); reflexivity.
  - pose proof (prefix_through_slash n (String c a) b Hn) as P.
    cbn [String.append contains] in P, IH |- *.
    rewrite P, IH. now rewrite orb_assoc.
Qed.

Lemma substring_last (a : string) :
  a <> EmptyString ->
  exists a0 c, a = a0 +s+ String c EmptyString /\
               String.substring (pred (String.length a)) 1 a = String c EmptyString.
Proof.
  induction a as [|x a IH]; intros Ha; [congruence|].
  destruct a as [|y a].
  - exists EmptyString, x. split; reflexivity.
  - destruct IH as (a0 & c & E & S); [discriminate|].
    exists (String x a0), c. split.
    + simpl. now rewrite <- E.
    + simpl in S |- *. exact S.
Qed.

(** [os.path.join] never creates an occurrence of a non-empty needle
    without ['/']. *)
Lemma contains_path_join (n a b : string) :
  n <> EmptyString -> contains "/" n = false ->
  contains n (path_join a b) = contains n a || contains n b.
Proof.
  intros Hne Hn. unfold path_join.
  destruct (String.eqb_spec a EmptyString) as [->|Ha].
  - rewrite contains_empty_hay.
    destruct (String.eqb_spec n EmptyString); [congruence | reflexivity].
  - destruct (substring_last a Ha) as (a0 & c & -> & S). rewrite S.
    destruct (String.eqb_spec (String c EmptyString) "/") as [E|E].
    + inversion E; subst c.
      rewrite append_assoc_s. cbn [String.append].
      rewrite !contains_through_slash by exact Hn.
      rewrite contains_empty_hay.
      destruct (String.eqb_spec n EmptyString); [congruence|].
      now rewrite orb_false_r.
    + change ("/" +s+ b) with (String "/" b).
      rewrite (contains_through_slash n (a0 +s+ String c EmptyString) b Hn).
      reflexivity.
Qed.

(** ** [article_exists] *)

Section ArticleExists.

Variable article_id : string.
Hypothesis Hne : article_id <> EmptyString.
Hypothesis Hslash : contains "/" article_id = false.

Lemma walk_entry_roots (e : entry) : forall top,
  existsb (contains article_id) (top :: walk_entry top e) =
  contains article_id top || existsb (contains article_id) (dir_names_entry e).
Proof.
  induction e as [f | n ch IH] using entry_ind'; intros top.
  - simpl. now rewrite orb_false_r.
  - cbn [walk_entry dir_names_entry].
    set (p := path_join top n).
    assert (Hlist : existsb (contains article_id) (p :: flat_map (walk_entry p) ch) =
                    contains article_id p ||
                    existsb (contains article_id) (flat_map dir_names_entry ch)).
    { clearbody p. induction IH as [|e ch He Hch IHch]; [reflexivity|].
      cbn [flat_map existsb] in IHch |- *.
      rewrite (existsb_app _ (walk_entry p e)), (existsb_app _ (dir_names_entry e)).
      specialize (He p). cbn [existsb] in He, IHch |- *.
      destruct (contains article_id p); [reflexivity|].
      simpl in He, IHch |- *. now rewrite He, IHch. }
    cbn [existsb] in Hlist |- *. rewrite Hlist.
    unfold p. rewrite contains_path_join by assumption.
    destruct (contains article_id top); reflexivity.
Qed.

Lemma article_exists_dirs (top : string) (es : list entry) :
  article_exists article_id top es =
  contains article_id top || existsb (contains article_id) (dir_names es).
Proof.
  unfold article_exists, os_walk_roots, walk_sub, dir_names.
  change (fun root : string => contains article_id root) with (contains article_id).
  induction es as [|e es IH]; [reflexivity|].
  cbn [flat_map existsb] in IH |- *.
  rewrite (existsb_app _ (walk_entry top e)), (existsb_app _ (dir_names_entry e)).
  pose proof (walk_entry_roots e top) as He.
  cbn [existsb] in He, IH |- *.
  destruct (contains article_id top); [reflexivity|].
  simpl in He, IH |- *. now rewrite He, IH.
Qed.

End ArticleExists.

(** C1 (as stated in the spec) fails: a file whose name holds the
    identifier is not seen, and an output path holding it always is. *)
Lemma C1_counterexample :
  ~ (article_exists "12345" "zhihu/markdown/cat" [File "12345.md"] = true <->
     already_fetched_spec "12345" [File "12345.md"]) /\
  ~ (article_exists "cat" "zhihu/markdown/cat" [] = true <->
     already_fetched_spec "cat" []).
Proof.
  split.
  - intros [_ H].
    assert (Hs : already_fetched_spec "12345" [File "12345.md"]).
    { exists "12345.md". split; [left; reflexivity | reflexivity]. }
    specialize (H Hs). vm_compute in H. discriminate H.
  - intros [H _].
    assert (Ht : article_exists "cat" "zhihu/markdown/cat" [] = true) by reflexivity.
    destruct (H Ht) as (nm & Hin & _). destruct Hin.
Qed.

(** C1 (amended): [article_exists] tests only the paths [os.walk] yields as
    [root] (the output directory and every sub-directory); file names are
    never examined. For a non-empty identifier without ['/'] it holds iff
    the identifier occurs in the output directory path or in the name of a
    directory at any depth below it. *)
Theorem article_exists_dirs_only (id top : string) (es : list entry)
    (Hne : id <> EmptyString) (Hslash : contains "/" id = false) :
  article_exists id top es = true <->
  contains id top = true \/ exists d, In d (dir_names es) /\ contains id d = true.
Proof.
  rewrite (article_exists_dirs id Hne Hslash top es), orb_true_iff, existsb_exists.
  reflexivity.
Qed.

Lemma article_exists_dirs_only_witness :
  ("12345" <> EmptyString /\ contains "/" "12345" = false) /\
  (article_exists "12345" "zhihu/markdown/cat" [Dir "12345_title" [File "index.md"]] = true <->
   contains "12345" "zhihu/markdown/cat" = true \/
   exists d, In d (dir_names [Dir "12345_title" [File "index.md"]]) /\ contains "12345" d = true).
Proof.
  split; [split; [discriminate | reflexivity] |].
  apply article_exists_dirs_only; [discriminate | reflexivity].
Defined.

(** ** [process_single_url] *)

Lemma process_single_url_fetch (fu : fetch_unit) (url id cookies out : string)
    (es : list entry) (tr : list event) :
  get_article_id url = Some id -> id <> EmptyString ->
  article_exists id out es = false -> zp_init fu cookies TEMP_DIR out = None ->
  process_single_url fu url cookies out es tr =
  match zp_judge_type fu url with
  | None => (Ok (url, true, None),
             tr ++ [EvProcess url] ++ [EvParserInit cookies TEMP_DIR out] ++ [EvJudgeType url])
  | Some e =>
      (if is_Exception e then Ok (url, false, Some (exn_str e)) else Raise e,
       tr ++ [EvProcess url] ++ [EvParserInit cookies TEMP_DIR out] ++ [EvJudgeType url])
  end.
Proof.
  intros Hid Hne Hex Hinit.
  unfold process_single_url, bind, emit, ret.
  rewrite Hid.
  destruct (String.eqb_spec id EmptyString) as [E|_]; [congruence|].
  rewrite Hex. unfold ZhihuParser, bind, emit, ret. rewrite Hinit.
  unfold try_except, judge_type, bind, emit, ret, raise.
  destruct (zp_judge_type fu url) as [e|]; rewrite <- !app_assoc; [|reflexivity].
  destruct (is_Exception e); reflexivity.
Qed.

(** C2 fails: an [Exception] raised by the [ZhihuParser] constructor, which
    runs before the [try], escapes [process_single_url]; [imap_unordered]
    re-raises it in the parent, so [process_urls] raises and the batch stops.
    An exception of [judge_type] that does not derive from [Exception]
    ([SystemExit]) escapes [process_single_url] as well. *)
Lemma C2_counterexample :
  fst (process_single_url
         {| zp_init := fun _ _ _ => Some (mk_exn (KException "OSError") "no temp dir");
            zp_judge_type := fun _ => None |}
         "https://zhuanlan.zhihu.com/p/12345" "token" "zhihu/markdown/cat" [] [])
  = Raise (mk_exn (KException "OSError") "no temp dir") /\
  fst (process_urls
         {| zp_init := fun _ _ _ => Some (mk_exn (KException "OSError") "no temp dir");
            zp_judge_type := fun _ => None |}
         (fun l => l) (fun _ => [])
         ["https://zhuanlan.zhihu.com/p/1"; "https://zhuanlan.zhihu.com/p/12345"]
         "token" "zhihu/markdown/cat" [])
  = Raise (mk_exn (KException "OSError") "no temp dir") /\
  fst (process_single_url
         {| zp_init := fun _ _ _ => None;
            zp_judge_type := fun _ => Some (mk_exn (KSystemExit 2) "2") |}
         "https://zhuanlan.zhihu.com/p/12345" "token" "zhihu/markdown/cat" [] [])
  = Raise (mk_exn (KSystemExit 2) "2").
Proof. split; [|split]; vm_compute; reflexivity. Qed.

(** C2: for a URL that reaches the fetch step, an exception of
    the [ZhihuParser] constructor (outside the [try]) propagates whatever its
    class; once the parser is constructed, a normal return of [judge_type]
    gives success, an exception deriving from [Exception] is caught and
    becomes the failure [str(e)], and any other exception propagates. *)
Theorem process_single_url_catches_Exception (fu : fetch_unit)
    (url id cookies out : string) (es : list entry) (tr : list event)
    (Hid : get_article_id url = Some id) (Hne : id <> EmptyString)
    (Hnew : article_exists id out es = false) :
  fst (process_single_url fu url cookies out es tr) =
  match zp_init fu cookies TEMP_DIR out with
  | Some e => Raise e
  | None =>
      match zp_judge_type fu url with
      | None => Ok (url, true, None)
      | Some e => if is_Exception e then Ok (url, false, Some (exn_str e)) else Raise e
      end
  end.
Proof.
  destruct (zp_init fu cookies TEMP_DIR out) as [e|] eqn:Hinit.
  - unfold process_single_url, bind, emit, ret. rewrite Hid.
    destruct (String.eqb_spec id EmptyString) as [E|_]; [congruence|].
    rewrite Hnew. unfold ZhihuParser, bind, emit, ret, raise. rewrite Hinit.
    reflexivity.
  - rewrite (process_single_url_fetch fu url id cookies out es tr Hid Hne Hnew Hinit).
    destruct (zp_judge_type fu url); reflexivity.
Qed.

Lemma process_single_url_catches_Exception_witness :
  fst (process_single_url
         {| zp_init := fun _ _ _ => None;
            zp_judge_type := fun _ => Some (mk_exn (KException "ConnectionError") "timeout") |}
         "https://zhuanlan.zhihu.com/p/12345" "token" "zhihu/markdown/cat" [] [])
  = Ok ("https://zhuanlan.zhihu.com/p/12345", false, Some "timeout").
Proof.
  exact (process_single_url_catches_Exception
           {| zp_init := fun _ _ _ => None;
              zp_judge_type := fun _ => Some (mk_exn (KException "ConnectionError") "timeout") |}
           "https://zhuanlan.zhihu.com/p/12345" "12345" "token" "zhihu/markdown/cat" [] []
           eq_refl ltac:(discriminate) eq_refl).
Defined.

(** C4: a URL without identifier fails with ["Invalid URL format"], is
    counted as a failure, and the fetch unit is never called. *)
Theorem process_single_url_invalid (fu : fetch_unit) (url cookies out : string)
    (es : list entry) (tr : list event) (t : tally)
    (Hnone : get_article_id url = None) :
  process_single_url fu url cookies out es tr =
    (Ok (url, false, Some "Invalid URL format"), tr ++ [EvProcess url]) /\
  fetch_invoked (snd (process_single_url fu url cookies out es [])) = false /\
  tally_step t (url, false, Some "Invalid URL format") =
    mk_tally (success_count t) (S (failure_count t)) (skipped_count t)
             (failed_urls t ++ [(url, Some "Invalid URL format")]).
Proof.
  unfold process_single_url, bind, emit, ret. rewrite Hnone.
  split; [reflexivity | split; reflexivity].
Qed.

Lemma process_single_url_invalid_witness :
  process_single_url
    {| zp_init := fun _ _ _ => None; zp_judge_type := fun _ => None |}
    "https://www.example.com/post/1" "token" "zhihu/markdown/cat" [] []
  = (Ok ("https://www.example.com/post/1", false, Some "Invalid URL format"),
     [EvProcess "https://www.example.com/post/1"]).
Proof.
  exact (proj1 (process_single_url_invalid
    {| zp_init := fun _ _ _ => None; zp_judge_type := fun _ => None |}
    "https://www.example.com/post/1" "token" "zhihu/markdown/cat" [] [] tally0 eq_refl)).
Defined.

(** C5: a URL whose identifier is found by [article_exists] is reported as
    ["Article already exists"], counted as skipped, and the fetch unit is
    never called. *)
Theorem process_single_url_skipped (fu : fetch_unit) (url id cookies out : string)
    (es : list entry) (tr : list event) (t : tally)
    (Hid : get_article_id url = Some id) (Hne : id <> EmptyString)
    (Hex : article_exists id out es = true) :
  process_single_url fu url cookies out es tr =
    (Ok (url, true, Some "Article already exists"), tr ++ [EvProcess url]) /\
  fetch_invoked (snd (process_single_url fu url cookies out es [])) = false /\
  tally_step t (url, true, Some "Article already exists") =
    mk_tally (success_count t) (failure_count t) (S (skipped_count t)) (failed_urls t).
Proof.
  unfold process_single_url, bind, emit, ret. rewrite Hid.
  destruct (String.eqb_spec id EmptyString) as [E|_]; [congruence|].
  rewrite Hex. split; [reflexivity | split; reflexivity].
Qed.

Lemma process_single_url_skipped_witness :
  process_single_url
    {| zp_init := fun _ _ _ => None; zp_judge_type := fun _ => None |}
    "https://zhuanlan.zhihu.com/p/12345" "token" "zhihu/markdown/cat"
    [Dir "12345" [File "index.md"]] []
  = (Ok ("https://zhuanlan.zhihu.com/p/12345", true, Some "Article already exists"),
     [EvProcess "https://zhuanlan.zhihu.com/p/12345"]).
Proof.
  exact (proj1 (process_single_url_skipped
    {| zp_init := fun _ _ _ => None; zp_judge_type := fun _ => None |}
    "https://zhuanlan.zhihu.com/p/12345" "12345" "token" "zhihu/markdown/cat"
    [Dir "12345" [File "index.md"]] [] tally0 eq_refl ltac:(discriminate) eq_refl)).
Defined.

(** ** [process_urls] *)

Lemma process_single_url_url (fu : fetch_unit) (u cookies out : string) (es : list entry)
    (tr : list event) (u' : string) (b : bool) (r : option string) :
  fst (process_single_url fu u cookies out es tr) = Ok (u', b, r) -> u' = u.
Proof.
  unfold process_single_url, ZhihuParser, judge_type, try_except, bind, emit, ret, raise.
  destruct (get_article_id u) as [id|]; [|cbn; congruence].
  destruct (String.eqb id EmptyString); [cbn; congruence|].
  destruct (article_exists id out es); [cbn; congruence|].
  destruct (zp_init fu cookies TEMP_DIR out); [cbn; congruence|].
  destruct (zp_judge_type fu u) as [e|]; [|cbn; congruence].
  destruct (is_Exception e); cbn; congruence.
Qed.

Lemma consume_ok (rs : list (res (string * bool * option string))) :
  forall t0 t, consume t0 rs = Ok t ->
  success_count t + failure_count t + skipped_count t =
    success_count t0 + failure_count t0 + skipped_count t0 + length rs /\
  length (failed_urls t) + failure_count t0 = length (failed_urls t0) + failure_count t /\
  (forall u r, In (u, r) (failed_urls t) ->
     In (u, r) (failed_urls t0) \/ exists b, In (Ok (u, b, r)) rs).
Proof.
  induction rs as [|x rs IH]; intros t0 t H.
  - cbn in H. inversion H; subst. split; [cbn; lia | split; [lia | intros u r Hi; left; exact Hi]].
  - destruct x as [[[u b] r]|e]; cbn in H; [|discriminate H].
    destruct (IH _ _ H) as (Hc & Hl & Hin). clear IH H.
    unfold tally_step in Hc, Hl, Hin.
    destruct b; [destruct (opt_str_eqb r "Article already exists")|];
      cbn in Hc, Hl, Hin |- *; (split; [lia | split; [|]]).
    + lia.
    + intros u' r' Hi. destruct (Hin u' r' Hi) as [H1|(b' & H2)];
        [left; exact H1 | right; exists b'; right; exact H2].
    + lia.
    + intros u' r' Hi. destruct (Hin u' r' Hi) as [H1|(b' & H2)];
        [left; exact H1 | right; exists b'; right; exact H2].
    + rewrite length_app in Hl. cbn in Hl. lia.
    + intros u' r' Hi. destruct (Hin u' r' Hi) as [H1|(b' & H2)].
      * apply in_app_or in H1 as [H1|[H1|[]]]; [left; exact H1|].
        inversion H1; subst. right. exists false. left. reflexivity.
      * right. exists b'. right. exact H2.
Qed.

(** C6: whenever [process_urls] returns, every URL produced exactly one
    outcome: the three counters sum to the number of URLs, and the failure
    list has one [(url, reason)] entry per failure, each for an input URL. *)
Theorem process_urls_counts (fu : fetch_unit) (sched : list string -> list string)
    (snap : string -> list entry) (urls : list string) (cookies out : string)
    (tr : list event) (t : tally)
    (Hperm : Permutation urls (sched urls))
    (Hok : fst (process_urls fu sched snap urls cookies out tr) = Ok t) :
  success_count t + failure_count t + skipped_count t = length urls /\
  length (failed_urls t) = failure_count t /\
  (forall u r, In (u, r) (failed_urls t) -> In u urls).
Proof.
  unfold process_urls in Hok. cbn [fst] in Hok.
  destruct (consume_ok _ _ _ Hok) as (Hc & Hl & Hin).
  rewrite !length_map, <- (Permutation_length Hperm) in Hc.
  cbn in Hc, Hl. split; [lia | split; [lia|]].
  intros u r Hi. destruct (Hin u r Hi) as [[]|(b & Hb)].
  rewrite map_map in Hb. apply in_map_iff in Hb as (u0 & E & Hu0).
  apply process_single_url_url in E. subst u0.
  apply (Permutation_in _ (Permutation_sym Hperm)). exact Hu0.
Qed.

Lemma process_urls_counts_witness :
  success_count (mk_tally 1 1 0 [("https://zhuanlan.zhihu.com/p/2", Some "boom")]) +
  failure_count (mk_tally 1 1 0 [("https://zhuanlan.zhihu.com/p/2", Some "boom")]) +
  skipped_count (mk_tally 1 1 0 [("https://zhuanlan.zhihu.com/p/2", Some "boom")]) =
  length ["https://zhuanlan.zhihu.com/p/1"; "https://zhuanlan.zhihu.com/p/2"].
Proof.
  refine (proj1 (process_urls_counts
    {| zp_init := fun _ _ _ => None;
       zp_judge_type := fun u => if String.eqb u "https://zhuanlan.zhihu.com/p/2"
                                 then Some (mk_exn (KException "RuntimeError") "boom") else None |}
    (@rev string) (fun _ => [])
    ["https://zhuanlan.zhihu.com/p/1"; "https://zhuanlan.zhihu.com/p/2"]
    "token" "zhihu/markdown/cat" [] _ _ _)).
  - apply Permutation_rev.
  - vm_compute. reflexivity.
Defined.

(** ** [normalize] *)

Lemma rstrip_nonspace (c : ascii) (s : string) :
  is_space c = false -> rstrip (String c s) = String c (rstrip s).
Proof. intros H. cbn [rstrip]. now rewrite H. Qed.

Lemma startswith_slashes (s : string) :
  startswith s "//" = true -> exists s', s = String "/" (String "/" s').
Proof.
  unfold startswith. destruct s as [|c1 [|c2 s']]; cbn [String.prefix];
    [discriminate| |].
  - destruct (ascii_dec "/"%char c1); discriminate.
  - destruct (ascii_dec "/"%char c1) as [<-|]; [|discriminate].
    destruct (ascii_dec "/"%char c2) as [<-|]; [|discriminate].
    intros _. now exists s'.
Qed.

(** C3 (as stated) fails: trailing whitespace is removed from a string
    starting with [//], and a leading blank before [//] does not prevent the
    prefix. *)
Lemma C3_counterexample :
  normalize "//www.zhihu.com/p/1 " <> "https:" +s+ "//www.zhihu.com/p/1 " /\
  normalize " //www.zhihu.com/p/1" <> strip " //www.zhihu.com/p/1".
Proof. split; intros H; vm_compute in H; discriminate H. Qed.

Lemma strip_blank_app (ws rest : string) :
  strip ws = EmptyString -> strip (ws +s+ rest) = strip rest.
Proof.
  unfold strip. intros H. f_equal.
  induction ws as [|c ws IH]; [reflexivity|].
  cbn [lstrip String.append] in *. destruct (is_space c) eqn:Ec.
  - exact (IH H).
  - rewrite rstrip_nonspace in H by exact Ec. discriminate H.
Qed.

(** C3 (amended): [normalize] strips, then adds [https:] exactly when the
    stripped string starts with [//], and otherwise returns the stripped
    string. So a raw string starting with [//] gives [https:] followed by it
    without trailing whitespace; whitespace followed by [//] gets the prefix
    too; any other input gives its stripped form; no result starts with
    [//]. *)
Theorem normalize_spec :
  (forall raw, startswith (strip raw) "//" = true -> normalize raw = "https:" +s+ strip raw) /\
  (forall raw, startswith (strip raw) "//" = false -> normalize raw = strip raw) /\
  (forall raw, startswith raw "//" = true -> normalize raw = "https:" +s+ rstrip raw) /\
  (forall ws rest, strip ws = EmptyString -> startswith rest "//" = true ->
     normalize (ws +s+ rest) = "https:" +s+ rstrip rest) /\
  (forall raw, startswith (normalize raw) "//" = false).
Proof.
  assert (Hslash : forall raw, startswith raw "//" = true -> normalize raw = "https:" +s+ rstrip raw).
  { intros raw H. apply startswith_slashes in H as [s ->].
    unfold normalize, strip. cbn [lstrip].
    change (is_space "/"%char) with false. cbv iota.
    rewrite !rstrip_nonspace by reflexivity.
    assert (Hs : startswith (String "/" (String "/" (rstrip s))) "//" = true).
    { unfold startswith. cbn. apply prefix_nil. }
    now rewrite Hs. }
  split; [|split; [|split; [exact Hslash|split]]].
  - intros raw H. unfold normalize. now rewrite H.
  - intros raw H. unfold normalize. now rewrite H.
  - intros ws rest Hws Hr. rewrite <- (Hslash rest Hr).
    unfold normalize. now rewrite (strip_blank_app ws rest Hws).
  - intros raw. unfold normalize.
    destruct (startswith (strip raw) "//") eqn:E; [reflexivity | exact E].
Qed.

(** ** [main] *)

(** C9: with no cookies file, a cookies file that is blank after [strip],
    or no URL list file, [main] raises [SystemExit(1)] (exit status 1)
    before any URL is processed: the trace is left unchanged. *)
Theorem main_fails_fast (fu : fetch_unit) (sched : list string -> list string)
    (snap : string -> string -> list entry) (e : env) (tr : list event)
    (Hcfg : cookies_file e = None \/
            (exists c, cookies_file e = Some c /\ strip c = EmptyString) \/
            url_files e = []) :
  main fu sched snap e tr = (Raise (sys_exit_exn 1), tr) /\
  exit_status (fst (main fu sched snap e tr)) = 1%Z.
Proof.
  assert (H : main fu sched snap e tr = (Raise (sys_exit_exn 1), tr)).
  { unfold main, read_cookies_from_file, bind, sys_exit, raise, ret.
    destruct Hcfg as [Hc | [(c & Hc & Hs) | Hf]].
    - now rewrite Hc.
    - rewrite Hc, Hs. reflexivity.
    - destruct (cookies_file e) as [c|]; [|reflexivity].
      destruct (String.eqb (strip c) EmptyString); [reflexivity|].
      now rewrite Hf. }
  split; [exact H | rewrite H; reflexivity].
Qed.

Lemma main_fails_fast_witness :
  main {| zp_init := fun _ _ _ => None; zp_judge_type := fun _ => None |}
       (fun l => l) (fun _ _ => [])
       (mk_env (Some "  ") [("tech.txt", ["https://zhuanlan.zhihu.com/p/1"])]) []
  = (Raise (sys_exit_exn 1), []).
Proof.
  refine (proj1 (main_fails_fast
    {| zp_init := fun _ _ _ => None; zp_judge_type := fun _ => None |}
    (fun l => l) (fun _ _ => [])
    (mk_env (Some "  ") [("tech.txt", ["https://zhuanlan.zhihu.com/p/1"])]) [] _)).
  right. left. exists "  ". split; reflexivity.
Defined.

(** ** De-duplication across the documents of a category *)

Lemma extract_loop_dedup (tags : list tag_view) : forall seen out,
  extract_loop tags seen out =
  (out ++ dedup_seen seen (tag_stream tags),
   rev (dedup_seen seen (tag_stream tags)) ++ seen).
Proof.
  induction tags as [|tag tags IH]; intros seen out.
  - cbn. now rewrite app_nil_r.
  - cbn [extract_loop tag_stream flat_map].
    destruct (tag_url tag) as [url|]; cbn [app dedup_seen]; [|apply IH].
    destruct (mem url seen); [apply IH|].
    rewrite IH. cbn [rev]. now rewrite <- !app_assoc.
Qed.

Lemma dedup_seen_app (l1 : list string) : forall seen l2,
  dedup_seen seen (l1 ++ l2) =
  dedup_seen seen l1 ++ dedup_seen (rev (dedup_seen seen l1) ++ seen) l2.
Proof.
  induction l1 as [|x l1 IH]; intros seen l2; [reflexivity|].
  cbn [app dedup_seen]. destruct (mem x seen); [apply IH|].
  rewrite IH. cbn [rev app]. now rewrite <- app_assoc.
Qed.

Lemma process_docs_dedup (docs : list (list node)) : forall seen merged,
  process_docs docs seen merged = merged ++ dedup_seen seen (flat_map doc_stream docs).
Proof.
  induction docs as [|d ds IH]; intros seen merged.
  - cbn. now rewrite app_nil_r.
  - cbn [process_docs flat_map]. unfold extract_urls_from_soup.
    rewrite extract_loop_dedup, IH, dedup_seen_app.
    unfold doc_stream. cbn [app]. now rewrite app_assoc.
Qed.

Lemma first_occ_filter_neq (x : string) (l : list string) :
  first_occ (filter (fun y => negb (String.eqb y x)) l) = remove string_dec x (first_occ l).
Proof.
  induction l as [|y l IH]; [reflexivity|].
  cbn [filter first_occ].
  destruct (String.eqb_spec y x) as [->|Hne]; cbn [negb].
  - rewrite IH. cbn [remove]. destruct (string_dec x x) as [_|]; [|congruence].
    now rewrite remove_remove_eq.
  - cbn [first_occ remove]. rewrite IH.
    destruct (string_dec x y) as [E|_]; [congruence|].
    now rewrite remove_remove_comm.
Qed.

Lemma filter_not_mem_cons (x : string) (seen l : list string) :
  filter (fun y => negb (mem y (x :: seen))) l =
  filter (fun y => negb (String.eqb y x)) (filter (fun y => negb (mem y seen)) l).
Proof.
  induction l as [|y l IH]; [reflexivity|].
  unfold mem in IH |- *. cbn [filter existsb] in IH |- *.
  destruct (existsb (String.eqb y) seen) eqn:E2, (String.eqb y x) eqn:E1;
    cbn [negb orb filter]; rewrite ?E1; cbn [negb]; rewrite ?IH; reflexivity.
Qed.

Lemma dedup_seen_first_occ (l : list string) : forall seen,
  dedup_seen seen l = first_occ (filter (fun y => negb (mem y seen)) l).
Proof.
  induction l as [|x l IH]; intros seen; [reflexivity|].
  cbn [dedup_seen filter]. destruct (mem x seen); cbn [negb]; [apply IH|].
  cbn [first_occ]. rewrite IH, filter_not_mem_cons, first_occ_filter_neq.
  reflexivity.
Qed.

Lemma filter_true_id {A} (l : list A) : filter (fun _ => true) l = l.
Proof. induction l as [|x l IH]; cbn; [reflexivity | now rewrite IH]. Qed.

Lemma NoDup_remove_any (x : string) (l : list string) :
  NoDup l -> NoDup (remove string_dec x l).
Proof.
  induction 1 as [|y l Hy Hl IH]; cbn; [constructor|].
  destruct (string_dec x y); [exact IH|].
  constructor; [|exact IH].
  intros Hin. apply in_remove in Hin as [Hin _]. contradiction.
Qed.

Lemma first_occ_NoDup (l : list string) : NoDup (first_occ l).
Proof.
  induction l as [|x l IH]; cbn; constructor.
  - apply remove_In.
  - now apply NoDup_remove_any.
Qed.

Lemma first_occ_In (l : list string) (u : string) : In u (first_occ l) <-> In u l.
Proof.
  induction l as [|x l IH]; [reflexivity|].
  cbn [first_occ In]. split.
  - intros [->|Hin]; [now left|]. apply in_remove in Hin as [Hin _].
    right. now apply IH.
  - intros [->|Hin]; [now left|].
    destruct (string_dec u x) as [->|Hne]; [now left|].
    right. apply in_in_remove; [exact Hne | now apply IH].
Qed.

(** C7: the URL list of a category is the list of first occurrences of the
    URLs offered by its [.html] documents taken in sorted name order: it
    has no duplicate, keeps every URL at its first occurrence, and holds
    exactly the URLs offered. *)
Theorem category_urls_first_occurrences (files : list (string * list node)) :
  category_urls files = first_occ (flat_map doc_stream (map snd (html_files files))) /\
  NoDup (category_urls files) /\
  (forall u, In u (category_urls files) <->
             In u (flat_map doc_stream (map snd (html_files files)))).
Proof.
  assert (H : category_urls files =
              first_occ (flat_map doc_stream (map snd (html_files files)))).
  { unfold category_urls. rewrite process_docs_dedup, dedup_seen_first_occ.
    cbn [app]. f_equal. apply filter_true_id. }
  split; [exact H | split].
  - rewrite H. apply first_occ_NoDup.
  - intros u. rewrite H. apply first_occ_In.
Qed.

(** ** [get_article_id]: the [split] scan *)

Lemma prefix_app_l (m a b : string) :
  String.prefix m a = true -> String.prefix m (a +s+ b) = true.
Proof.
  revert m. induction a as [|c a IH]; intros m H.
  - destruct m; [apply prefix_nil | discriminate H].
  - destruct m as [|d m]; [apply prefix_nil|].
    cbn [String.append String.prefix] in H |- *.
    destruct (ascii_dec d c); [now apply IH | discriminate H].
Qed.



Lemma prefix_refl (s : string) : String.prefix s s = true.
Proof.
  induction s as [|c s IH]; [reflexivity|].
  cbn [String.prefix]. destruct (ascii_dec c c); [exact IH | congruence].
Qed.

Lemma prefix_cons_inv (d c : ascii) (t s : string) :
  String.prefix (String d t) (String c s) = true -> d = c /\ String.prefix t s = true.
Proof.
  cbn [String.prefix]. destruct (ascii_dec d c); [now split | discriminate].
Qed.

(** Scanning digits never meets a separator that starts with a non-digit. *)
Lemma contains_digits (d : ascii) (m q r : string) :
  is_digit d = false -> all_digits q = true ->
  contains (String d m) (q +s+ r) = contains (String d m) r.
Proof.
  intros Hd. induction q as [|c q IH]; intros Hq; [reflexivity|].
  cbn [all_digits] in Hq. apply andb_true_iff in Hq as [Hc Hq].
  cbn [String.append contains String.prefix].
  destruct (ascii_dec d c) as [->|_]; [congruence|]. now apply IH.
Qed.

Lemma contains_digits_only (d : ascii) (m q : string) :
  is_digit d = false -> all_digits q = true -> contains (String d m) q = false.
Proof.
  intros Hd Hq. rewrite <- (append_nil_r q), (contains_digits d m q EmptyString Hd Hq).
  reflexivity.
Qed.



Lemma split_go_nonnil (sep s : string) : forall k cur, split_go sep s k cur <> [].
Proof.
  induction s as [|c s IH]; intros k cur; cbn [split_go]; [discriminate|].
  destruct k; [destruct (String.prefix sep (String c s)); [discriminate | apply IH] | apply IH].
Qed.

Lemma last_cons_nonnil {A} (a d : A) (l : list A) :
  l <> [] -> List.last (a :: l) d = List.last l d.
Proof. destruct l; [congruence | reflexivity]. Qed.

Lemma split_skip_all (sep r : string) : forall cur, split_go sep r (String.length r) cur = [cur].
Proof. induction r as [|c r IH]; intros cur; [reflexivity | apply IH]. Qed.

Lemma suffixes_ok_border (sep s : string) :
  suffixes_ok sep s = true ->
  forall x t, x <> EmptyString -> s = x +s+ t -> String.prefix t sep = true -> t = EmptyString.
Proof.
  induction s as [|c s IH]; intros Hs x t Hx E Ht.
  - destruct x; [congruence | discriminate E].
  - destruct x as [|c' x]; [congruence|]. cbn [String.append] in E.
    injection E as _ E. cbn [suffixes_ok] in Hs.
    apply andb_true_iff in Hs as [H1 H2].
    destruct x as [|c'' x].
    + cbn [String.append] in E. subst s.
      destruct (String.eqb_spec t EmptyString) as [->|_]; [reflexivity|].
      rewrite Ht in H1. discriminate H1.
    + apply (IH H2 (String c'' x) t); [discriminate | exact E | exact Ht].
Qed.

Lemma split_skip_app (sep t r : string) :
  forall cur, split_go sep (t +s+ r) (String.length t) cur = split_go sep r 0 cur.
Proof. induction t as [|c t IH]; intros cur; [reflexivity | apply IH]. Qed.

Lemma prefix_app_short (t a b : string) :
  String.length t <= String.length a ->
  String.prefix t (a +s+ b) = true -> String.prefix t a = true.
Proof.
  revert t. induction a as [|c a IH]; intros t Hl H.
  - destruct t; [reflexivity | cbn in Hl; lia].
  - destruct t as [|d t]; [apply prefix_nil|].
    cbn [String.append] in H. apply prefix_cons_inv in H as [-> H].
    cbn [String.prefix]. destruct (ascii_dec c c); [|congruence].
    apply IH; [cbn in Hl; lia | exact H].
Qed.

Lemma length_append_s (a b : string) :
  String.length (a +s+ b) = String.length a + String.length b.
Proof. induction a as [|c a IH]; cbn; [reflexivity | now rewrite IH]. Qed.

Section SplitBorderFree.

Variable sep : string.
Hypothesis Hsep : sep <> EmptyString.
Hypothesis Hborder : suffixes_ok sep sep = true.

Variable r : string.
Hypothesis Hr : forall cur, split_go sep r 0 cur = [cur +s+ r].

(** A scan positioned [length t] characters inside an occurrence, where
    [t] is the rest of that occurrence, ends with the piece [r] on an input
    [s ++ sep ++ r]: no occurrence overlaps the final one, and [r] holds
    none. *)
Lemma split_go_last (s : string) : forall t cur,
  (t = EmptyString \/ exists x, x <> EmptyString /\ sep = x +s+ t) ->
  String.prefix t (s +s+ sep +s+ r) = true ->
  List.last (split_go sep (s +s+ sep +s+ r) (String.length t) cur) EmptyString = r.
Proof.
  induction s as [|c s IH]; intros t cur Ht Hp.
  - cbn [String.append] in Hp |- *.
    assert (t = EmptyString) as ->.
    { destruct Ht as [->|(x & Hx & E)]; [reflexivity|].
      apply (suffixes_ok_border sep sep Hborder x t Hx E).
      apply (prefix_app_short t sep r); [|exact Hp].
      rewrite E, length_append_s. lia. }
    destruct sep as [|d sep'] eqn:Es; [congruence|].
    pose proof (prefix_app_l (String d sep') (String d sep') r (prefix_refl _)) as Hq.
    cbn [String.length String.append split_go] in Hq |- *. rewrite Hq.
    cbn [pred]. rewrite split_skip_app, Hr. reflexivity.
  - cbn [String.append].
    destruct t as [|d t'].
    + cbn [String.length split_go].
      destruct (String.prefix sep (String c (s +s+ sep +s+ r))) eqn:Hm.
      * assert (Hd : exists d sep', sep = String d sep')
          by (destruct sep as [|d sep']; [congruence | now exists d, sep']).
        destruct Hd as (d & sep' & Es).
        pose proof Hm as Hm'. rewrite Es in Hm' at 1.
        apply prefix_cons_inv in Hm' as [_ Hm'].
        assert (Hpl : pred (String.length sep) = String.length sep') by (now rewrite Es).
        rewrite Hpl.
        assert (Hx : sep = String d EmptyString +s+ sep') by exact Es.
        rewrite last_cons_nonnil by apply split_go_nonnil.
        apply IH; [|exact Hm'].
        right. exists (String d EmptyString). split; [discriminate | exact Hx].
      * apply (IH EmptyString); [now left | apply prefix_nil].
    + cbn [String.length split_go].
      cbn [String.append] in Hp. apply prefix_cons_inv in Hp as [_ Hp].
      apply IH; [|exact Hp].
      destruct Ht as [E|(x & Hx & E)]; [discriminate E|].
      right. exists (x +s+ String d EmptyString). split.
      * destruct x; [congruence | discriminate].
      * rewrite E, append_assoc_s. reflexivity.
Qed.

Lemma split_last_piece (pre : string) :
  last_piece (py_split sep (pre +s+ sep +s+ r)) = r.
Proof.
  unfold last_piece, py_split.
  exact (split_go_last pre EmptyString EmptyString (or_introl eq_refl) (prefix_nil _)).
Qed.

End SplitBorderFree.

Lemma split_last_piece_empty (sep pre : string) :
  sep <> EmptyString -> suffixes_ok sep sep = true ->
  last_piece (py_split sep (pre +s+ sep)) = EmptyString.
Proof.
  intros Hsep Hb.
  rewrite <- (append_nil_r sep) at 2.
  apply (split_last_piece sep Hsep Hb EmptyString).
  intros cur. cbn. now rewrite append_nil_r.
Qed.

(** The split marker of the branch [get_article_id] takes. *)
Lemma branch_marker_id (url m : string) :
  branch_marker url = Some m -> get_article_id url = Some (id_after m url).
Proof.
  unfold branch_marker, get_article_id.
  destruct (contains "zhuanlan.zhihu.com/p/" url);
    [intros E; injection E as <-; reflexivity|].
  destruct (contains "question" url && contains "answer" url);
    [intros E; injection E as <-; reflexivity|].
  destruct (contains "zvideo" url); [intros E; injection E as <-; reflexivity|].
  destruct (contains "column" url); [intros E; injection E as <-; reflexivity|].
  discriminate.
Qed.

Lemma branch_marker_border (url m : string) :
  branch_marker url = Some m -> m <> EmptyString /\ suffixes_ok m m = true.
Proof.
  unfold branch_marker.
  destruct (contains "zhuanlan.zhihu.com/p/" url);
    [intros E; injection E as <-; split; [discriminate | reflexivity]|].
  destruct (contains "question" url && contains "answer" url);
    [intros E; injection E as <-; split; [discriminate | reflexivity]|].
  destruct (contains "zvideo" url);
    [intros E; injection E as <-; split; [discriminate | reflexivity]|].
  destruct (contains "column" url);
    [intros E; injection E as <-; split; [discriminate | reflexivity]|].
  discriminate.
Qed.



(** C10, counterexample: a URL ending in [zvideo/] but also holding
    [question] and [answer] takes the question-answer branch, gets the
    non-empty identifier ["2"], and is fetched; a URL ending in [zvideo]
    without the slash gets the identifier ["https:"]. *)
Lemma C10_counterexample :
  get_article_id "https://www.zhihu.com/question/1/answer/2/zvideo/" = Some "2" /\
  fst (process_single_url
         {| zp_init := fun _ _ _ => None; zp_judge_type := fun _ => None |}
         "https://www.zhihu.com/question/1/answer/2/zvideo/" "token" "zhihu/markdown/cat" [] [])
    = Ok ("https://www.zhihu.com/question/1/answer/2/zvideo/", true, None) /\
  fetch_invoked (snd (process_single_url
         {| zp_init := fun _ _ _ => None; zp_judge_type := fun _ => None |}
         "https://www.zhihu.com/question/1/answer/2/zvideo/" "token" "zhihu/markdown/cat" [] []))
    = true /\
  get_article_id "https://www.zhihu.com/zvideo" = Some "https:".
Proof. vm_compute. repeat split. Qed.

(** C10, amended: when a URL ends with the split marker of the branch
    [get_article_id] takes for it (the first of the tests
    [zhuanlan.zhihu.com/p/], [question] and [answer], [zvideo], [column]
    that holds), the identifier is the empty string, the outcome is
    [Failed("Invalid URL format")], and the fetch unit is never called. *)
Theorem process_single_url_marker_at_end (fu : fetch_unit) (pre m cookies out : string)
    (es : list entry) (tr : list event)
    (Hb : branch_marker (pre +s+ m) = Some m) :
  get_article_id (pre +s+ m) = Some EmptyString /\
  process_single_url fu (pre +s+ m) cookies out es tr =
    (Ok (pre +s+ m, false, Some "Invalid URL format"), tr ++ [EvProcess (pre +s+ m)]) /\
  fetch_invoked (snd (process_single_url fu (pre +s+ m) cookies out es [])) = false.
Proof.
  destruct (branch_marker_border _ _ Hb) as [Hne Hbo].
  assert (Hid : get_article_id (pre +s+ m) = Some EmptyString).
  { rewrite (branch_marker_id _ _ Hb). unfold id_after.
    rewrite (split_last_piece_empty m pre Hne Hbo). reflexivity. }
  split; [exact Hid|].
  unfold process_single_url, bind, emit, ret. rewrite Hid.
  split; reflexivity.
Qed.

Lemma process_single_url_marker_at_end_witness :
  branch_marker ("https://www.zhihu.com/" +s+ "zvideo/") = Some "zvideo/" /\
  process_single_url
    {| zp_init := fun _ _ _ => None; zp_judge_type := fun _ => None |}
    ("https://www.zhihu.com/" +s+ "zvideo/") "token" "zhihu/markdown/cat" [] []
  = (Ok ("https://www.zhihu.com/" +s+ "zvideo/", false, Some "Invalid URL format"),
     [EvProcess ("https://www.zhihu.com/" +s+ "zvideo/")]).
Proof.
  split; [vm_compute; reflexivity|].
  exact (proj1 (proj2 (process_single_url_marker_at_end
    {| zp_init := fun _ _ _ => None; zp_judge_type := fun _ => None |}
    "https://www.zhihu.com/" "zvideo/" "token" "zhihu/markdown/cat" [] [] eq_refl))).
Defined.

(* ================================================================== *)
(** * Further properties of the code *)

(** ** [str.strip] *)

Lemma lstrip_nonspace (c : ascii) (s : string) :
  is_space c = false -> lstrip (String c s) = String c s.
Proof. intros H. cbn [lstrip]. now rewrite H. Qed.

Lemma rstrip_idem (s : string) : rstrip (rstrip s) = rstrip s.
Proof.
  induction s as [|c s IH]; [reflexivity|].
  cbn [rstrip].
  destruct (is_space c && String.eqb (rstrip s) EmptyString) eqn:E; [reflexivity|].
  cbn [rstrip]. rewrite IH, E. reflexivity.
Qed.

Lemma lstrip_rstrip_lstrip (s : string) : lstrip (rstrip (lstrip s)) = rstrip (lstrip s).
Proof.
  induction s as [|c s IH]; [reflexivity|].
  cbn [lstrip]. destruct (is_space c) eqn:E; [exact IH|].
  rewrite (rstrip_nonspace c s E). apply lstrip_nonspace, E.
Qed.

Lemma strip_idem (s : string) : strip (strip s) = strip s.
Proof. unfold strip. now rewrite lstrip_rstrip_lstrip, rstrip_idem. Qed.

Lemma append_nonempty (a s : string) : s <> EmptyString -> a +s+ s <> EmptyString.
Proof. destruct a; cbn; [auto | discriminate]. Qed.

Lemma rstrip_app_fixed (a s : string) :
  s <> EmptyString -> rstrip s = s -> rstrip (a +s+ s) = a +s+ s.
Proof.
  intros Hs Hr. induction a as [|c a IH]; [exact Hr|].
  cbn [String.append rstrip]. rewrite IH.
  destruct (String.eqb_spec (a +s+ s) EmptyString) as [E|_];
    [exfalso; exact (append_nonempty a s Hs E)|].
  now rewrite andb_false_r.
Qed.

(** [strip] removes a trailing run of whitespace. *)
Lemma rstrip_app_blank (a s : string) :
  rstrip s = EmptyString -> rstrip (a +s+ s) = rstrip a.
Proof.
  intros Hs. induction a as [|c a IH]; [exact Hs|].
  cbn [String.append rstrip]. now rewrite IH.
Qed.

Lemma lstrip_app_fixed (a b : string) :
  a <> EmptyString -> lstrip a = a -> lstrip (a +s+ b) = a +s+ b.
Proof.
  destruct a as [|c a]; [congruence|]. intros _ H.
  cbn [String.append lstrip] in H |- *. destruct (is_space c).
  - exfalso. assert (Hl : forall t, String.length (lstrip t) <= String.length t).
    { induction t as [|d t IHt]; cbn [lstrip]; [cbn; lia|].
      destruct (is_space d); cbn [String.length]; lia. }
    specialize (Hl a). rewrite H in Hl. cbn [String.length] in Hl. lia.
  - reflexivity.
Qed.

(** A stripped non-empty string followed by a newline strips back to itself. *)
Lemma strip_line (u : string) :
  u <> EmptyString -> strip u = u -> strip (u +s+ String "010"%char EmptyString) = u.
Proof.
  intros Hne Hs. unfold strip in *.
  assert (Hl : lstrip u = u).
  { destruct u as [|c u']; [congruence|].
    cbn [lstrip] in Hs |- *. destruct (is_space c) eqn:E; [|reflexivity].
    exfalso. assert (Hr : forall t, String.length (rstrip (lstrip t)) <= String.length t).
    { intros t. assert (A1 : forall x, String.length (rstrip x) <= String.length x).
      { induction x as [|d x IHx]; cbn [rstrip]; [cbn; lia|].
        destruct (is_space d && String.eqb (rstrip x) EmptyString); cbn [String.length]; lia. }
      assert (A2 : forall x, String.length (lstrip x) <= String.length x).
      { induction x as [|d x IHx]; cbn [lstrip]; [cbn; lia|].
        destruct (is_space d); cbn [String.length]; lia. }
      specialize (A1 (lstrip t)). specialize (A2 t). lia. }
    specialize (Hr u'). rewrite Hs in Hr. cbn [String.length] in Hr. lia. }
  rewrite (lstrip_app_fixed u _ Hne Hl).
  rewrite (rstrip_app_blank u (String "010"%char EmptyString) eq_refl). rewrite Hl in Hs. exact Hs.
Qed.

(** ** [normalize] *)

Lemma startswith_https (t : string) : startswith ("https:" +s+ t) "//" = false.
Proof.
  unfold startswith. cbn [String.prefix String.append].
  destruct (ascii_dec "/"%char "h"%char) as [E|_]; [discriminate E | reflexivity].
Qed.

Lemma normalize_clean (raw : string) :
  strip (normalize raw) = normalize raw /\
  (strip raw <> EmptyString -> normalize raw <> EmptyString) /\
  (startswith (strip raw) "//" = true -> normalize raw = "https:" +s+ strip raw) /\
  (startswith (strip raw) "//" = false -> normalize raw = strip raw) /\
  startswith (normalize raw) "//" = false.
Proof.
  unfold normalize. set (t := strip raw).
  assert (Ht : strip t = t) by apply strip_idem.
  assert (Hrt : rstrip t = t) by (unfold t, strip; apply rstrip_idem).
  destruct (startswith t "//") eqn:E.
  - assert (Hne : t <> EmptyString) by (intros H; rewrite H in E; discriminate E).
    split; [|split; [|split; [reflexivity | split; [discriminate | apply startswith_https]]]].
    + unfold strip.
      change ("https:" +s+ t) with (String "h"%char ("ttps:" +s+ t)).
      rewrite lstrip_nonspace by reflexivity.
      change (String "h"%char ("ttps:" +s+ t)) with ("https:" +s+ t).
      apply rstrip_app_fixed; assumption.
    + intros _. discriminate.
  - split; [exact Ht | split; [exact (fun H => H) | split; [discriminate | split; [reflexivity | exact E]]]].
Qed.

(** Normalizing a URL twice changes nothing, and the result is already
    stripped. *)
Theorem normalize_idempotent (raw : string) :
  strip (normalize raw) = normalize raw /\ normalize (normalize raw) = normalize raw.
Proof.
  destruct (normalize_clean raw) as (Hs & _ & _ & _ & Hn).
  split; [exact Hs|].
  destruct (normalize_clean (normalize raw)) as (_ & _ & _ & Hf & _).
  rewrite Hs in Hf. exact (Hf Hn).
Qed.

(** ** [read_urls_from_file] and [read_cookies_from_file] *)

(** Every URL read is non-empty and carries no surrounding whitespace;
    reading the result again gives it back; blank lines are dropped, so
    there are never more URLs than lines. *)
Theorem read_urls_from_file_clean (lines : list string) :
  (forall u, In u (read_urls_from_file lines) -> u <> EmptyString /\ strip u = u) /\
  read_urls_from_file (read_urls_from_file lines) = read_urls_from_file lines /\
  length (read_urls_from_file lines) <= length lines.
Proof.
  unfold read_urls_from_file.
  assert (Hin : forall u, In u (map strip (filter (fun line => negb (String.eqb (strip line) EmptyString)) lines)) ->
                u <> EmptyString /\ strip u = u).
  { intros u Hu. apply in_map_iff in Hu as (l & <- & Hl).
    apply filter_In in Hl as [_ Hl]. rewrite strip_idem.
    split; [|reflexivity]. intros E. rewrite E in Hl. discriminate Hl. }
  split; [exact Hin|]. split.
  - set (xs := map strip _) in Hin |- *. clearbody xs.
    induction xs as [|x xs IH]; [reflexivity|].
    destruct (Hin x (or_introl eq_refl)) as [Hne Hs].
    cbn [filter map]. rewrite Hs.
    destruct (String.eqb_spec x EmptyString) as [|_]; [congruence|].
    cbn [negb map]. rewrite Hs, IH; [reflexivity|].
    intros u Hu. apply Hin. right. exact Hu.
  - clear Hin. rewrite length_map. induction lines as [|l ls IH]; [cbn; lia|].
    cbn [filter]. destruct (negb _); cbn [length]; lia.
Qed.

(** ** [extract_urls_from_soup] *)

Lemma dedup_seen_props (l : list string) : forall seen,
  NoDup (dedup_seen seen l) /\
  (forall u, In u (dedup_seen seen l) -> mem u seen = false /\ In u l).
Proof.
  induction l as [|x l IH]; intros seen; [split; [constructor | intros u []]|].
  cbn [dedup_seen]. destruct (mem x seen) eqn:Em.
  - destruct (IH seen) as [Hn Hi]. split; [exact Hn|].
    intros u Hu. destruct (Hi u Hu) as [H1 H2]. split; [exact H1 | right; exact H2].
  - destruct (IH (x :: seen)) as [Hn Hi]. split.
    + constructor; [|exact Hn].
      intros Hx. destruct (Hi x Hx) as [H1 _]. cbn in H1.
      rewrite String.eqb_refl in H1. discriminate H1.
    + intros u [<-|Hu]; [split; [exact Em | left; reflexivity]|].
      destruct (Hi u Hu) as [H1 H2]. cbn in H1. apply orb_false_iff in H1 as [_ H1].
      split; [exact H1 | right; exact H2].
Qed.

Lemma tag_url_clean (tag : tag_view) (u : string) :
  tag_url tag = Some u -> u <> EmptyString /\ strip u = u /\ startswith u "//" = false.
Proof.
  assert (K : forall raw, strip raw <> EmptyString ->
            normalize (strip raw) <> EmptyString /\ strip (normalize (strip raw)) = normalize (strip raw) /\
            startswith (normalize (strip raw)) "//" = false).
  { intros raw Hr. destruct (normalize_clean (strip raw)) as (H1 & H2 & _ & _ & H5).
    rewrite strip_idem in H2. split; [exact (H2 Hr) | split; assumption]. }
  unfold tag_url.
  destruct (String.eqb (tag_name tag) "meta" && opt_str_eqb (attr_get "itemprop" (tag_attrs tag)) "url").
  - set (raw := attr_get_default "content" "" (tag_attrs tag)).
    destruct (String.eqb_spec (strip raw) EmptyString) as [|Hr]; [discriminate|].
    destruct (tag_next tag) as [[sn sa]|]; [|discriminate].
    destruct (_ && _); [|discriminate]. intros H. injection H as <-. exact (K raw Hr).
  - destruct (_ && _ && _); [|discriminate].
    set (raw := attr_get_default "href" "" (tag_attrs tag)).
    destruct (String.eqb_spec (strip raw) EmptyString) as [|Hr]; [discriminate|].
    intros H. injection H as <-. exact (K raw Hr).
Qed.

Lemma tag_stream_In (tags : list tag_view) (u : string) :
  In u (tag_stream tags) -> exists tag, In tag tags /\ tag_url tag = Some u.
Proof.
  unfold tag_stream. intros H. apply in_flat_map in H as (tag & Ht & Hu).
  exists tag. split; [exact Ht|].
  destruct (tag_url tag); [destruct Hu as [<-|[]]; reflexivity | destruct Hu].
Qed.

(** Every URL [extract_urls_from_soup] returns is non-empty, stripped and
    not protocol-relative. *)
Theorem extract_urls_clean (doc : list node) (seen : list string) (u : string)
    (Hu : In u (fst (extract_urls_from_soup doc seen))) :
  u <> EmptyString /\ strip u = u /\ startswith u "//" = false.
Proof.
  unfold extract_urls_from_soup in Hu. rewrite extract_loop_dedup in Hu. cbn [fst app] in Hu.
  destruct (dedup_seen_props (tag_stream (find_all doc)) seen) as [_ Hi].
  destruct (Hi u Hu) as [_ Hs]. destruct (tag_stream_In _ _ Hs) as (tag & _ & Ht).
  exact (tag_url_clean tag u Ht).
Qed.

Lemma extract_urls_clean_witness :
  In "https://zhuanlan.zhihu.com/p/1"
     (fst (extract_urls_from_soup
             [NElem "a" [("target", "_blank"); ("data-za-detail-view-element_name", "Title");
                         ("href", " //zhuanlan.zhihu.com/p/1 ")] []] [])) /\
  ("https://zhuanlan.zhihu.com/p/1" <> EmptyString /\
   strip "https://zhuanlan.zhihu.com/p/1" = "https://zhuanlan.zhihu.com/p/1" /\
   startswith "https://zhuanlan.zhihu.com/p/1" "//" = false).
Proof.
  assert (H : In "https://zhuanlan.zhihu.com/p/1"
     (fst (extract_urls_from_soup
             [NElem "a" [("target", "_blank"); ("data-za-detail-view-element_name", "Title");
                         ("href", " //zhuanlan.zhihu.com/p/1 ")] []] []))) by (vm_compute; left; reflexivity).
  split; [exact H | exact (extract_urls_clean _ _ _ H)].
Defined.

(** [extract_urls_from_soup] returns URLs that are pairwise distinct and
    were not in [seen], and adds exactly them to [seen]. *)
Theorem extract_urls_seen (doc : list node) (seen : list string) :
  snd (extract_urls_from_soup doc seen) = rev (fst (extract_urls_from_soup doc seen)) ++ seen /\
  NoDup (fst (extract_urls_from_soup doc seen)) /\
  (forall u, In u (fst (extract_urls_from_soup doc seen)) -> mem u seen = false).
Proof.
  unfold extract_urls_from_soup. rewrite extract_loop_dedup. cbn [fst snd app].
  destruct (dedup_seen_props (tag_stream (find_all doc)) seen) as [Hn Hi].
  split; [reflexivity | split; [exact Hn | intros u Hu; exact (proj1 (Hi u Hu))]].
Qed.

(** ** Text and comment nodes *)

Lemma find_all_node_elem (nm : string) (a : attrs) (ch : list node) next :
  find_all_node (NElem nm a ch) next = mk_tag nm a next :: find_all ch.
Proof. reflexivity. Qed.

Lemma next_tag_sibling_drop (l : list node) :
  next_tag_sibling (drop_text l) = next_tag_sibling l.
Proof.
  unfold drop_text. induction l as [|x l IH]; [reflexivity|].
  destruct x; cbn [flat_map drop_text_node app next_tag_sibling]; [exact IH | exact IH | reflexivity].
Qed.

Lemma find_all_drop_list (l : list node) :
  Forall (fun x => match x with
                   | NElem _ _ ch => find_all (drop_text ch) = find_all ch
                   | _ => True
                   end) l ->
  find_all (drop_text l) = find_all l.
Proof.
  induction l as [|x l IH]; intros H; [reflexivity|].
  inversion H as [|? ? Hx Hl]; subst.
  specialize (IH Hl).
  destruct x as [s|s|nm a ch]; unfold drop_text in IH |- *;
    cbn [flat_map drop_text_node app find_all]; [exact IH | exact IH|].
  change (flat_map drop_text_node ch) with (drop_text ch).
  change (flat_map drop_text_node l) with (drop_text l) in IH |- *.
  rewrite find_all_node_elem, find_all_node_elem, next_tag_sibling_drop, Hx, IH.
  reflexivity.
Qed.

Lemma find_all_drop (doc : list node) : find_all (drop_text doc) = find_all doc.
Proof.
  apply find_all_drop_list, Forall_forall. intros x _. revert x.
  apply (node_ind' (fun x => match x with
                             | NElem _ _ ch => find_all (drop_text ch) = find_all ch
                             | _ => True
                             end)); [trivial | trivial|].
  intros n a ch Hch. exact (find_all_drop_list ch Hch).
Qed.

(** The URLs [extract_urls_from_soup] finds, and the set [seen] it leaves,
    do not depend on the text, comment and other string nodes of the
    document, at any depth (the [next_sibling] walk skips them). *)
Theorem extract_urls_ignore_text (doc : list node) (seen : list string) :
  extract_urls_from_soup (drop_text doc) seen = extract_urls_from_soup doc seen.
Proof. unfold extract_urls_from_soup. now rewrite find_all_drop. Qed.

(** ** Sorted processing order *)

Lemma insert_name_perm {A} (x : string * A) (l : list (string * A)) :
  Permutation (insert_name x l) (x :: l).
Proof.
  induction l as [|y l IH]; cbn; [auto|].
  destruct (String.leb (fst x) (fst y)); [auto|].
  eapply perm_trans; [apply perm_skip, IH | apply perm_swap].
Qed.

Lemma sort_names_perm {A} (l : list (string * A)) : Permutation (sort_names l) l.
Proof.
  unfold sort_names. induction l as [|x l IH]; cbn [fold_right]; [auto|].
  eapply perm_trans; [apply insert_name_perm | apply perm_skip, IH].
Qed.

Lemma insert_name_sorted {A} (x : string * A) (l : list (string * A)) :
  Sorted (fun a b => String.leb (fst a) (fst b) = true) l ->
  Sorted (fun a b => String.leb (fst a) (fst b) = true) (insert_name x l).
Proof.
  induction l as [|y l IH]; intros Hs; cbn; [repeat constructor|].
  destruct (String.leb (fst x) (fst y)) eqn:E; [constructor; [exact Hs | constructor; exact E]|].
  apply Sorted_inv in Hs as [Hs Hh].
  assert (Ryx : String.leb (fst y) (fst x) = true)
    by (destruct (String.leb_total (fst x) (fst y)); congruence).
  constructor; [exact (IH Hs)|].
  destruct l as [|z l]; cbn; [constructor; exact Ryx|].
  destruct (String.leb (fst x) (fst z)); constructor; [exact Ryx|].
  inversion Hh; assumption.
Qed.

Lemma sort_names_sorted {A} (l : list (string * A)) :
  Sorted (fun a b => String.leb (fst a) (fst b) = true) (sort_names l).
Proof.
  unfold sort_names. induction l as [|x l IH]; cbn [fold_right]; [constructor|].
  apply insert_name_sorted, IH.
Qed.

(** ** [Path.stem] and the output directory *)

Lemma substring_app_r (a b : string) (n : nat) :
  String.substring (String.length a) n (a +s+ b) = String.substring 0 n b.
Proof. induction a as [|c a IH]; [reflexivity | exact IH]. Qed.

Lemma substring_app_l (a b : string) :
  String.substring 0 (String.length a) (a +s+ b) = a.
Proof. induction a as [|c a IH]; [destruct b; reflexivity | cbn; now rewrite IH]. Qed.

(** The URL file [<c>.txt] that [pages_to_urls.py] writes for category [c]
    is processed by [process_url_file] into the output directory
    [zhihu/markdown/<c>], except for [c = "."], whose URLs go to
    [zhihu/markdown] itself. *)
Theorem txt_stem_output_dir (c : string) (Hc : c <> EmptyString) :
  txt_stem (c +s+ ".txt") = c /\
  path_div EXTRACTED_DIR (txt_stem (c +s+ ".txt")) =
    if String.eqb c "." then "zhihu/markdown" else "zhihu/markdown/" +s+ c.
Proof.
  assert (Hs : txt_stem (c +s+ ".txt") = c).
  { unfold txt_stem. rewrite length_append_s. cbn [String.length].
    replace (String.length c + 4 - 4)%nat with (String.length c) by lia.
    rewrite substring_app_r, substring_app_l.
    destruct c as [|x c]; [congruence|]. cbn [String.length].
    replace (4 <? S (String.length c) + 4)%nat with true by (symmetry; apply Nat.ltb_lt; lia).
    reflexivity. }
  split; [exact Hs|]. rewrite Hs. unfold path_div.
  destruct (String.eqb c "."); reflexivity.
Qed.

Lemma txt_stem_output_dir_witness :
  "." <> EmptyString /\
  txt_stem ("." +s+ ".txt") = "." /\
  path_div EXTRACTED_DIR (txt_stem ("." +s+ ".txt")) =
    if String.eqb "." "." then "zhihu/markdown" else "zhihu/markdown/" +s+ ".".
Proof.
  assert (H : "." <> EmptyString) by discriminate.
  split; [exact H | exact (txt_stem_output_dir "." H)].
Defined.

(** ** [process_single_url]: calls to the fetch unit *)

(** Every run of [process_single_url] starts by taking up its URL, then
    may construct one parser with [TEMP_DIR] and its own output directory,
    then may call [judge_type] on its own URL, and nothing else. *)
Theorem process_single_url_calls (fu : fetch_unit) (url cookies out : string)
    (es : list entry) (tr : list event) :
  exists k, 1 <= k <= 3 /\
  snd (process_single_url fu url cookies out es tr) =
  tr ++ firstn k [EvProcess url; EvParserInit cookies TEMP_DIR out; EvJudgeType url].
Proof.
  unfold process_single_url, ZhihuParser, judge_type, try_except, bind, emit, ret, raise.
  destruct (get_article_id url) as [id|]; [|exists 1; split; [lia | reflexivity]].
  destruct (String.eqb id EmptyString); [exists 1; split; [lia | reflexivity]|].
  destruct (article_exists id out es); [exists 1; split; [lia | reflexivity]|].
  destruct (zp_init fu cookies TEMP_DIR out);
    [exists 2; split; [lia | cbn; now rewrite <- app_assoc]|].
  exists 3; split; [lia|].
  destruct (zp_judge_type fu url) as [e|]; [destruct (is_Exception e)|];
    cbn; now rewrite <- !app_assoc.
Qed.

(** An outcome that [process_urls] counts as a success comes only from a
    URL with a non-empty identifier not yet present, whose parser was
    constructed and whose [judge_type] call returned normally. *)
Theorem process_single_url_success_fetched (fu : fetch_unit) (url cookies out : string)
    (es : list entry) (tr : list event) (r : string * bool * option string)
    (Hok : fst (process_single_url fu url cookies out es tr) = Ok r)
    (Hs : is_success r = true) :
  r = (url, true, None) /\
  (exists id, get_article_id url = Some id /\ id <> EmptyString /\ article_exists id out es = false) /\
  zp_init fu cookies TEMP_DIR out = None /\ zp_judge_type fu url = None /\
  snd (process_single_url fu url cookies out es tr) =
    tr ++ [EvProcess url; EvParserInit cookies TEMP_DIR out; EvJudgeType url].
Proof.
  revert Hok.
  unfold process_single_url, ZhihuParser, judge_type, try_except, bind, emit, ret, raise.
  destruct (get_article_id url) as [id|]; [|cbn; intros H; injection H as <-; discriminate Hs].
  destruct (String.eqb_spec id EmptyString) as [_|Hne];
    [cbn; intros H; injection H as <-; discriminate Hs|].
  destruct (article_exists id out es) eqn:Hex;
    [cbn; intros H; injection H as <-; discriminate Hs|].
  destruct (zp_init fu cookies TEMP_DIR out) eqn:Hi; [cbn; discriminate|].
  destruct (zp_judge_type fu url) as [e|] eqn:Hj.
  - destruct (is_Exception e); cbn; [intros H; injection H as <-; discriminate Hs | discriminate].
  - cbn. intros H. injection H as <-.
    split; [reflexivity|]. split; [exists id; auto|].
    split; [reflexivity | split; [reflexivity | now rewrite <- !app_assoc]].
Qed.

Lemma process_single_url_success_fetched_witness :
  fst (process_single_url {| zp_init := fun _ _ _ => None; zp_judge_type := fun _ => None |}
         "https://zhuanlan.zhihu.com/p/1" "token" "zhihu/markdown/cat" [] [])
    = Ok ("https://zhuanlan.zhihu.com/p/1", true, None) /\
  is_success ("https://zhuanlan.zhihu.com/p/1", true, None) = true /\
  snd (process_single_url {| zp_init := fun _ _ _ => None; zp_judge_type := fun _ => None |}
         "https://zhuanlan.zhihu.com/p/1" "token" "zhihu/markdown/cat" [] [])
    = [EvProcess "https://zhuanlan.zhihu.com/p/1";
       EvParserInit "token" TEMP_DIR "zhihu/markdown/cat";
       EvJudgeType "https://zhuanlan.zhihu.com/p/1"].
Proof.
  assert (H1 : fst (process_single_url {| zp_init := fun _ _ _ => None; zp_judge_type := fun _ => None |}
         "https://zhuanlan.zhihu.com/p/1" "token" "zhihu/markdown/cat" [] [])
    = Ok ("https://zhuanlan.zhihu.com/p/1", true, None)) by (vm_compute; reflexivity).
  assert (H2 : is_success ("https://zhuanlan.zhihu.com/p/1", true, None) = true) by reflexivity.
  split; [exact H1 | split; [exact H2|]].
  exact (proj2 (proj2 (proj2 (proj2 (process_single_url_success_fetched _ _ _ _ _ [] _ H1 H2))))).
Defined.

(** ** [process_urls]: the order of completion *)

Lemma consume_fold (rs : list (res (string * bool * option string))) : forall t0 t,
  consume t0 rs = Ok t <-> exists vs, rs = map Ok vs /\ t = fold_left tally_step vs t0.
Proof.
  induction rs as [|x rs IH]; intros t0 t; split.
  - cbn. intros H. injection H as <-. exists []. auto.
  - intros ([|v vs] & E & ->); [reflexivity | discriminate E].
  - destruct x as [r|e]; cbn; [|discriminate].
    intros H. apply IH in H as (vs & -> & ->). exists (r :: vs). auto.
  - intros ([|v vs] & E & ->); [discriminate E|]. injection E as -> ->.
    cbn. apply IH. eauto.
Qed.

Lemma consume_ok_iff (rs : list (res (string * bool * option string))) : forall t0,
  (exists t, consume t0 rs = Ok t) <-> (forall e, ~ In (Raise e) rs).
Proof.
  induction rs as [|x rs IH]; intros t0; split.
  - intros _ e [].
  - intros _. exists t0. reflexivity.
  - destruct x as [r|e]; cbn; [|intros (t & H); discriminate H].
    intros H e [E|Hin]; [discriminate E|]. exact (proj1 (IH _) H e Hin).
  - destruct x as [r|e]; cbn; intros H; [|exfalso; exact (H e (or_introl eq_refl))].
    apply IH. intros e Hin. exact (H e (or_intror Hin)).
Qed.

Lemma fold_tally (vs : list (string * bool * option string)) : forall t0,
  success_count (fold_left tally_step vs t0) = success_count t0 + length (filter is_success vs) /\
  failure_count (fold_left tally_step vs t0) = failure_count t0 + length (filter is_failure vs) /\
  skipped_count (fold_left tally_step vs t0) = skipped_count t0 + length (filter is_skipped vs) /\
  failed_urls (fold_left tally_step vs t0) =
    failed_urls t0 ++ map (fun r => let '(u, _, e) := r in (u, e)) (filter is_failure vs).
Proof.
  induction vs as [|[[u b] e] vs IH]; intros t0.
  - cbn. rewrite app_nil_r. split; [lia | split; [lia | split; [lia | reflexivity]]].
  - cbn [fold_left filter]. destruct (IH (tally_step t0 (u, b, e))) as (H1 & H2 & H3 & H4).
    rewrite H1, H2, H3, H4. clear.
    unfold tally_step, is_success, is_failure, is_skipped.
    destruct b; [destruct (opt_str_eqb e "Article already exists")|]; cbn;
      (split; [lia | split; [lia | split; [lia|]]]); rewrite <- ?app_assoc; reflexivity.
Qed.

Lemma Permutation_filter_of {A} (f : A -> bool) (l l' : list A) :
  Permutation l l' -> Permutation (filter f l) (filter f l').
Proof.
  induction 1; cbn.
  - constructor.
  - destruct (f x); auto.
  - destruct (f x), (f y); auto using perm_swap.
  - eapply perm_trans; eauto.
Qed.

(** For the same outcome of every URL, the order in which the pool
    completes the tasks does not matter: [process_urls] returns for one
    order exactly when it returns for the other, and then with the same
    three counts and the same failures, listed possibly in another order. *)
Theorem process_urls_order_independent (fu : fetch_unit)
    (sched1 sched2 : list string -> list string) (snap : string -> list entry)
    (urls : list string) (cookies out : string) (tr : list event)
    (Hp : Permutation (sched1 urls) (sched2 urls)) :
  ((exists t1, fst (process_urls fu sched1 snap urls cookies out tr) = Ok t1) <->
   (exists t2, fst (process_urls fu sched2 snap urls cookies out tr) = Ok t2)) /\
  (forall t1 t2,
     fst (process_urls fu sched1 snap urls cookies out tr) = Ok t1 ->
     fst (process_urls fu sched2 snap urls cookies out tr) = Ok t2 ->
     success_count t1 = success_count t2 /\ failure_count t1 = failure_count t2 /\
     skipped_count t1 = skipped_count t2 /\ Permutation (failed_urls t1) (failed_urls t2)).
Proof.
  unfold process_urls. cbn [fst].
  set (run := fun u => process_single_url fu u cookies out (snap u) []).
  assert (Hr : Permutation (map fst (map run (sched1 urls))) (map fst (map run (sched2 urls))))
    by (apply Permutation_map, Permutation_map, Hp).
  split.
  - rewrite !consume_ok_iff. split.
    + intros H e Hin. apply (H e). exact (Permutation_in _ (Permutation_sym Hr) Hin).
    + intros H e Hin. apply (H e). exact (Permutation_in _ Hr Hin).
  - intros t1 t2 H1 H2.
    apply consume_fold in H1 as (vs1 & E1 & ->). apply consume_fold in H2 as (vs2 & E2 & ->).
    rewrite E1, E2 in Hr.
    apply Permutation_map_inv in Hr as (vs3 & E3 & Hp3).
    assert (vs1 = vs3) as <-.
    { clear -E3. revert vs3 E3. induction vs1 as [|v vs IH]; intros [|w ws] E; cbn in E.
      - reflexivity.
      - discriminate E.
      - discriminate E.
      - injection E as -> E. f_equal. exact (IH ws E). }
    destruct (fold_tally vs1 tally0) as (A1 & A2 & A3 & A4).
    destruct (fold_tally vs2 tally0) as (B1 & B2 & B3 & B4).
    rewrite A1, A2, A3, A4, B1, B2, B3, B4. cbn [success_count failure_count skipped_count failed_urls app].
    split; [f_equal; apply Permutation_length, Permutation_filter_of, Permutation_sym, Hp3|].
    split; [f_equal; apply Permutation_length, Permutation_filter_of, Permutation_sym, Hp3|].
    split; [f_equal; apply Permutation_length, Permutation_filter_of, Permutation_sym, Hp3|].
    apply Permutation_map, Permutation_filter_of, Permutation_sym, Hp3.
Qed.

Lemma process_urls_order_independent_witness :
  Permutation ["https://zhuanlan.zhihu.com/p/1"; "https://www.example.com/x"]
              (rev ["https://zhuanlan.zhihu.com/p/1"; "https://www.example.com/x"]) /\
  ((exists t1, fst (process_urls {| zp_init := fun _ _ _ => None; zp_judge_type := fun _ => None |}
                  (fun l => l) (fun _ => [])
                  ["https://zhuanlan.zhihu.com/p/1"; "https://www.example.com/x"] "token" "out" []) = Ok t1) <->
   (exists t2, fst (process_urls {| zp_init := fun _ _ _ => None; zp_judge_type := fun _ => None |}
                  (@rev string) (fun _ => [])
                  ["https://zhuanlan.zhihu.com/p/1"; "https://www.example.com/x"] "token" "out" []) = Ok t2)).
Proof.
  assert (H : Permutation ["https://zhuanlan.zhihu.com/p/1"; "https://www.example.com/x"]
              (rev ["https://zhuanlan.zhihu.com/p/1"; "https://www.example.com/x"]))
    by (cbn; apply perm_swap).
  split; [exact H|].
  exact (proj1 (process_urls_order_independent
    {| zp_init := fun _ _ _ => None; zp_judge_type := fun _ => None |}
    (fun l => l) (@rev string) (fun _ => [])
    ["https://zhuanlan.zhihu.com/p/1"; "https://www.example.com/x"] "token" "out" [] H)).
Defined.

(** ** [main]: the grand totals *)

Lemma process_url_file_total (fu : fetch_unit) (sched : list string -> list string)
    (snap : string -> string -> list entry) (Hsched : forall l, Permutation l (sched l))
    (uf : string * list string) (cookies : string) (tr : list event) (s f k : nat) :
  fst (process_url_file fu sched snap uf cookies tr) = Ok (s, f, k) ->
  s + f + k = length (read_urls_from_file (snd uf)).
Proof.
  unfold process_url_file, bind, ret.
  destruct (process_urls fu sched _ _ cookies _ tr) as [[t|e] tr'] eqn:E; cbn; [|discriminate].
  intros H. injection H as <- <- <-.
  unfold process_urls in E. injection E as E _.
  destruct (consume_ok _ _ _ E) as (Hc & _ & _). cbn in Hc.
  rewrite !length_map in Hc.
  rewrite <- (Permutation_length (Hsched (read_urls_from_file (snd uf)))) in Hc. lia.
Qed.

Lemma process_all_total (fu : fetch_unit) (sched : list string -> list string)
    (snap : string -> string -> list entry) (Hsched : forall l, Permutation l (sched l))
    (cookies : string) (files : list (string * list string)) : forall ts tf tk tr s f k,
  fst (process_all fu sched snap files cookies (ts, tf, tk) tr) = Ok (s, f, k) ->
  s + f + k = ts + tf + tk +
    fold_right Nat.add 0 (map (fun uf => length (read_urls_from_file (snd uf))) files).
Proof.
  induction files as [|uf files IH]; intros ts tf tk tr s f k.
  - cbn. intros H. injection H as <- <- <-. lia.
  - cbn [process_all]. unfold bind.
    destruct (process_url_file fu sched snap uf cookies tr) as [[[[s1 f1] k1]|e] tr'] eqn:E;
      [|cbn; discriminate].
    intros H. apply IH in H.
    pose proof (process_url_file_total fu sched snap Hsched uf cookies tr s1 f1 k1) as Hf.
    rewrite E in Hf. specialize (Hf eq_refl). cbn [map fold_right]. lia.
Qed.

(** When [main] completes, every non-blank line of every URL file has
    been counted exactly once in its grand totals (success, failure,
    skipped), whatever order the pool completes the tasks in. *)
Theorem main_totals (fu : fetch_unit) (sched : list string -> list string)
    (snap : string -> string -> list entry) (e : env) (tr : list event) (s f k : nat)
    (Hsched : forall l, Permutation l (sched l))
    (Hok : fst (main fu sched snap e tr) = Ok (s, f, k)) :
  s + f + k = fold_right Nat.add 0 (map (fun uf => length (read_urls_from_file (snd uf))) (url_files e)).
Proof.
  revert Hok. unfold main, bind.
  destruct (read_cookies_from_file (cookies_file e) tr) as [[c|ex] tr'];
    [|cbn; discriminate].
  destruct (url_files e) as [|uf files] eqn:Ef; [cbn; discriminate|].
  intros H. rewrite <- Ef in H |- *. rewrite Ef in H.
  apply (process_all_total fu sched snap Hsched) in H. rewrite Ef. lia.
Qed.

Lemma main_totals_witness :
  (forall l : list string, Permutation l ((fun l : list string => l) l)) /\
  fst (main {| zp_init := fun _ _ _ => None; zp_judge_type := fun _ => None |}
            (fun l => l) (fun _ _ => [])
            (mk_env (Some "token") [("cat.txt", ["https://zhuanlan.zhihu.com/p/1"; "  "; "bad"])]) [])
    = Ok (1, 1, 0) /\
  1 + 1 + 0 = fold_right Nat.add 0
    (map (fun uf => length (read_urls_from_file (snd uf)))
         [("cat.txt", ["https://zhuanlan.zhihu.com/p/1"; "  "; "bad"])]).
Proof.
  assert (Hs : forall l : list string, Permutation l ((fun l : list string => l) l)) by (intros l; apply Permutation_refl).
  assert (Hm : fst (main {| zp_init := fun _ _ _ => None; zp_judge_type := fun _ => None |}
            (fun l => l) (fun _ _ => [])
            (mk_env (Some "token") [("cat.txt", ["https://zhuanlan.zhihu.com/p/1"; "  "; "bad"])]) [])
    = Ok (1, 1, 0)) by (vm_compute; reflexivity).
  split; [exact Hs | split; [exact Hm|]].
  exact (main_totals _ _ _ _ _ 1 1 0 Hs Hm).
Defined.

(** ** Writing and reading back a URL list *)

Lemma univ_newlines_plain (a b : string) :
  has_newline a = false -> univ_newlines (a +s+ b) = a +s+ univ_newlines b.
Proof.
  induction a as [|c a IH]; intros H; [reflexivity|].
  cbn [has_newline] in H. apply orb_false_iff in H as [H H3].
  apply orb_false_iff in H as [_ H2].
  cbn [String.append univ_newlines]. rewrite H2. now rewrite IH.
Qed.

Lemma univ_newlines_nl (s : string) :
  univ_newlines (String "010"%char s) = String "010"%char (univ_newlines s).
Proof. reflexivity. Qed.

Lemma univ_newlines_write (urls : list string) :
  (forall u, In u urls -> has_newline u = false) ->
  univ_newlines (write_urls urls) = write_urls urls.
Proof.
  induction urls as [|u us IH]; intros H; [reflexivity|].
  cbn [write_urls]. rewrite univ_newlines_plain by (apply H; left; reflexivity).
  cbn [String.append]. rewrite univ_newlines_nl, IH; [reflexivity|].
  intros v Hv. apply H. right. exact Hv.
Qed.

Lemma lines_go_line (u rest : string) : forall cur,
  has_newline u = false ->
  lines_go (u +s+ String "010"%char rest) cur =
  (cur +s+ u +s+ String "010"%char EmptyString) :: lines_go rest EmptyString.
Proof.
  induction u as [|c u IH]; intros cur H; [reflexivity|].
  cbn [has_newline] in H. apply orb_false_iff in H as [H H3].
  apply orb_false_iff in H as [H1 _].
  cbn [String.append lines_go]. rewrite H1, IH by exact H3.
  now rewrite append_assoc_s.
Qed.

Lemma file_lines_write (urls : list string) :
  (forall u, In u urls -> has_newline u = false) ->
  file_lines (write_urls urls) = map (fun u => u +s+ String "010"%char EmptyString) urls.
Proof.
  intros H. unfold file_lines. rewrite univ_newlines_write by exact H.
  clear -H. induction urls as [|u us IH]; [reflexivity|].
  cbn [write_urls map]. cbn [String.append].
  rewrite lines_go_line by (apply H; left; reflexivity).
  rewrite IH; [reflexivity|]. intros v Hv. apply H. right. exact Hv.
Qed.

Lemma read_back (urls : list string) :
  (forall u, In u urls -> u <> EmptyString /\ strip u = u /\ has_newline u = false) ->
  read_urls_from_file (file_lines (write_urls urls)) = urls.
Proof.
  intros H. rewrite file_lines_write by (intros u Hu; apply (H u Hu)).
  unfold read_urls_from_file. induction urls as [|u us IH]; [reflexivity|].
  destruct (H u (or_introl eq_refl)) as (Hne & Hs & _).
  cbn [map filter]. rewrite (strip_line u Hne Hs).
  destruct (String.eqb_spec u EmptyString) as [|_]; [congruence|].
  cbn [negb map]. rewrite (strip_line u Hne Hs), IH; [reflexivity|].
  intros v Hv. apply H. right. exact Hv.
Qed.

(** ** [pages_to_urls.main] *)

Lemma string_leb_trans (a b c : string) :
  String.leb a b = true -> String.leb b c = true -> String.leb a c = true.
Proof.
  unfold String.leb. revert b c.
  induction a as [|x a IH]; intros [|y b] [|z c]; cbn; auto; try discriminate.
  unfold Ascii.compare.
  destruct (N.compare_spec (N_of_ascii x) (N_of_ascii y)) as [E1|E1|E1];
  destruct (N.compare_spec (N_of_ascii y) (N_of_ascii z)) as [E2|E2|E2];
  destruct (N.compare_spec (N_of_ascii x) (N_of_ascii z)) as [E3|E3|E3];
  try lia; try discriminate; auto.
  apply IH.
Qed.

Lemma mem_false_not_In (u : string) (l : list string) : mem u l = false -> ~ In u l.
Proof.
  unfold mem. intros H Hin.
  assert (E : existsb (String.eqb u) l = true)
    by (apply existsb_exists; exists u; split; [exact Hin | apply String.eqb_refl]).
  rewrite H in E. discriminate E.
Qed.

Lemma NoDup_app_of (l l' : list string) :
  NoDup l -> NoDup l' -> (forall a, In a l' -> ~ In a l) -> NoDup (l ++ l').
Proof.
  intros H1 H2 H3. induction H1 as [|x l Hx Hl IH]; cbn; [exact H2|].
  constructor; [|apply IH; intros a Ha Hin; exact (H3 a Ha (or_intror Hin))].
  intros Hin. apply in_app_or in Hin as [Hin|Hin]; [exact (Hx Hin)|].
  exact (H3 x Hin (or_introl eq_refl)).
Qed.

Lemma category_loop_ok (cp : string) (fs : list (string * PagesToUrls.cat_item)) :
  forall seen merged m,
  PagesToUrls.category_loop cp fs seen merged = Ok m ->
  seen = rev merged -> NoDup merged ->
  (forall u, In u merged -> u <> EmptyString /\ strip u = u /\ startswith u "//" = false) ->
  NoDup m /\ (forall u, In u m -> u <> EmptyString /\ strip u = u /\ startswith u "//" = false).
Proof.
  induction fs as [|[fn it] fs IH]; intros seen merged m H Hs Hn Hc.
  - cbn in H. injection H as <-. auto.
  - destruct it as [n doc|n]; cbn [PagesToUrls.category_loop] in H; [|discriminate H].
    unfold extract_urls_from_soup in H. rewrite extract_loop_dedup in H. cbn [app] in H.
    destruct (dedup_seen_props (tag_stream (find_all doc)) seen) as [Hdn Hdi].
    apply (IH _ _ _ H).
    + rewrite Hs, rev_app_distr. reflexivity.
    + apply NoDup_app_of; [exact Hn | exact Hdn|].
      intros a Ha Hin. apply (mem_false_not_In a seen (proj1 (Hdi a Ha))).
      rewrite Hs. apply in_rev. rewrite rev_involutive. exact Hin.
    + intros u Hu. apply in_app_or in Hu as [Hu|Hu]; [exact (Hc u Hu)|].
      destruct (tag_stream_In _ _ (proj2 (Hdi u Hu))) as (tag & _ & Ht).
      exact (tag_url_clean tag u Ht).
Qed.

Lemma category_files_shape (d o : string) (L : list (string * PagesToUrls.top_item)) :
  forall written, exists pre post,
  L = pre ++ post /\
  map fst (snd (PagesToUrls.category_files d o L written)) =
    map fst written ++
    map (fun c => path_join o (c +s+ ".txt"))
        (flat_map (fun p => match snd p with PagesToUrls.TCat _ _ => [fst p] | _ => [] end) pre) /\
  (fst (PagesToUrls.category_files d o L written) = Ok tt -> post = []).
Proof.
  induction L as [|[k it] L IH]; intros written.
  - exists [], []. cbn. rewrite app_nil_r. auto.
  - destruct it as [n|n items]; cbn [PagesToUrls.category_files].
    + destruct (IH written) as (pre & post & E & Hm & Hp).
      exists ((k, PagesToUrls.TFile n) :: pre), post.
      split; [rewrite E; reflexivity | split; [exact Hm | exact Hp]].
    + destruct (PagesToUrls.process_category (path_join d k) items) as [m|e].
      * destruct (IH (written ++ [(path_join o (k +s+ ".txt"), write_urls m)]))
          as (pre & post & E & Hm & Hp).
        exists ((k, PagesToUrls.TCat n items) :: pre), post.
        split; [rewrite E; reflexivity | split; [|exact Hp]].
        rewrite Hm, map_app, <- app_assoc. reflexivity.
      * exists [], ((k, PagesToUrls.TCat n items) :: L). cbn.
        split; [reflexivity | split; [now rewrite app_nil_r | discriminate]].
Qed.

Lemma StronglySorted_app_l {A} (R : A -> A -> Prop) (l l' : list A) :
  StronglySorted R (l ++ l') -> StronglySorted R l.
Proof.
  induction l as [|x l IH]; intros H; [constructor|].
  apply StronglySorted_inv in H as [H1 H2]. constructor; [exact (IH H1)|].
  apply Forall_forall. intros y Hy. apply (proj1 (Forall_forall _ _) H2). apply in_or_app. left. exact Hy.
Qed.

Lemma cat_keys_sorted (pre : list (string * PagesToUrls.top_item)) :
  StronglySorted (fun a b => String.leb (fst a) (fst b) = true) pre ->
  StronglySorted (fun a b => String.leb a b = true)
    (flat_map (fun p => match snd p with PagesToUrls.TCat _ _ => [fst p] | _ => [] end) pre).
Proof.
  induction pre as [|[k it] pre IH]; intros H; [constructor|].
  apply StronglySorted_inv in H as [H1 H2]. cbn [flat_map].
  destruct it as [n|n items]; cbn [snd app]; [exact (IH H1)|].
  constructor; [exact (IH H1)|].
  apply Forall_forall. intros y Hy. apply in_flat_map in Hy as ([k' it'] & Hin & Hy).
  destruct it'; cbn in Hy; [destruct Hy|]. destruct Hy as [<-|[]].
  exact (proj1 (Forall_forall _ _) H2 _ Hin).
Qed.

Lemma Permutation_flat_map_of {A B} (f : A -> list B) (l l' : list A) :
  Permutation l l' -> Permutation (flat_map f l) (flat_map f l').
Proof.
  induction 1; cbn [flat_map].
  - constructor.
  - apply Permutation_app_head. assumption.
  - rewrite !app_assoc. apply Permutation_app_tail, Permutation_app_comm.
  - eapply perm_trans; eauto.
Qed.

Lemma cat_keys_names (items : list PagesToUrls.top_item) :
  flat_map (fun p => match snd p with PagesToUrls.TCat _ _ => [fst p] | _ => [] end)
    (map (fun i => (PagesToUrls.top_item_name i, i)) items) = PagesToUrls.category_names items.
Proof.
  induction items as [|[n|n its] items IH]; cbn; [reflexivity | exact IH | now rewrite IH].
Qed.

(** [pages_to_urls.main]: without the input directory it exits with status
    1 and writes nothing. Otherwise the files it writes are
    [<output_dir>/<c>.txt] for category directories [c] only (plain files
    are skipped), in ascending order of [c]; when it completes, it has
    written one for every category directory. *)
Theorem pages_main_outputs (input_dir output_dir : string) :
  (exit_status (fst (PagesToUrls.main input_dir output_dir None)) = 1%Z /\
   snd (PagesToUrls.main input_dir output_dir None) = []) /\
  (forall items, exists cs,
     map fst (snd (PagesToUrls.main input_dir output_dir (Some items))) =
       map (fun c => path_join output_dir (c +s+ ".txt")) cs /\
     Sorted (fun a b => String.leb a b = true) cs /\
     incl cs (PagesToUrls.category_names items) /\
     (fst (PagesToUrls.main input_dir output_dir (Some items)) = Ok tt ->
      Permutation cs (PagesToUrls.category_names items))).
Proof.
  split; [split; reflexivity|]. intros items. unfold PagesToUrls.main.
  set (L := sort_names (map (fun i => (PagesToUrls.top_item_name i, i)) items)).
  assert (HL : forall k it, In (k, it) L <-> In it items /\ k = PagesToUrls.top_item_name it).
  { intros k it. unfold L. split.
    - intros H. apply (Permutation_in _ (sort_names_perm _)) in H.
      apply in_map_iff in H as (i & E & Hi). injection E as <- <-. auto.
    - intros [Hi ->]. apply (Permutation_in _ (Permutation_sym (sort_names_perm _))).
      apply in_map_iff. exists it. auto. }
  destruct (category_files_shape input_dir output_dir L []) as (pre & post & E & Hm & Hp).
  set (cats := fun l : list (string * PagesToUrls.top_item) =>
                 flat_map (fun p => match snd p with PagesToUrls.TCat _ _ => [fst p] | _ => [] end) l).
  exists (cats pre). split; [exact Hm|]. split; [|split].
  - apply StronglySorted_Sorted, cat_keys_sorted.
    apply (StronglySorted_app_l _ pre post). rewrite <- E.
    apply Sorted_StronglySorted; [|apply sort_names_sorted].
    intros x y z. apply string_leb_trans.
  - intros c Hc. apply in_flat_map in Hc as ([k it] & Hin & Hc).
    destruct it as [n|n its]; cbn in Hc; [destruct Hc|]. destruct Hc as [<-|[]].
    assert (Hin' : In (k, PagesToUrls.TCat n its) L) by (rewrite E; apply in_or_app; left; exact Hin).
    apply HL in Hin' as [Hi ->]. cbn.
    rewrite <- cat_keys_names. apply in_flat_map.
    exists (n, PagesToUrls.TCat n its). split; [|left; reflexivity].
    apply in_map_iff. exists (PagesToUrls.TCat n its). auto.
  - intros Hok. rewrite (Hp Hok), app_nil_r in E. unfold cats. rewrite <- E.
    rewrite <- cat_keys_names. apply Permutation_flat_map_of, sort_names_perm.
Qed.

(** Every file [pages_to_urls.main] writes holds a list of pairwise distinct
    URLs, each non-empty, stripped and not protocol-relative, one per line;
    when none of them contains a line break, [read_urls_from_file] of
    [batch_download.py] reads exactly that list back from the file. *)
Theorem pages_main_files_read_back (input_dir output_dir : string)
    (input : option (list PagesToUrls.top_item)) (p content : string)
    (Hw : In (p, content) (snd (PagesToUrls.main input_dir output_dir input))) :
  exists merged,
    content = write_urls merged /\ NoDup merged /\
    (forall u, In u merged -> u <> EmptyString /\ strip u = u /\ startswith u "//" = false) /\
    ((forall u, In u merged -> has_newline u = false) ->
     read_urls_from_file (file_lines content) = merged).
Proof.
  set (P := fun content : string => exists merged,
    content = write_urls merged /\ NoDup merged /\
    (forall u, In u merged -> u <> EmptyString /\ strip u = u /\ startswith u "//" = false) /\
    ((forall u, In u merged -> has_newline u = false) ->
     read_urls_from_file (file_lines content) = merged)).
  change (P content).
  assert (Hloop : forall L written, (forall p c, In (p, c) written -> P c) ->
            forall p c, In (p, c) (snd (PagesToUrls.category_files input_dir output_dir L written)) -> P c).
  { induction L as [|[k it] L IH]; intros written Hwr; [exact Hwr|].
    destruct it as [n|n items]; cbn [PagesToUrls.category_files]; [exact (IH written Hwr)|].
    destruct (PagesToUrls.process_category (path_join input_dir k) items) as [m|e] eqn:Ec;
      [|exact Hwr].
    apply IH. intros p' c' Hin. apply in_app_or in Hin as [Hin|[E|[]]]; [exact (Hwr p' c' Hin)|].
    injection E as _ <-.
    destruct (category_loop_ok _ _ [] [] m Ec eq_refl (NoDup_nil _) (fun u H => match H with end))
      as [Hn Hc].
    exists m. split; [reflexivity | split; [exact Hn | split; [exact Hc|]]].
    intros Hnl. apply read_back. intros u Hu.
    destruct (Hc u Hu) as (H1 & H2 & _). auto. }
  destruct input as [items|]; [|destruct Hw].
  exact (Hloop _ [] (fun p c H => match H with end) p content Hw).
Qed.

Lemma pages_main_files_read_back_witness :
  In ("zhihu/urls/cat.txt", "https://zhuanlan.zhihu.com/p/1" +s+ String "010"%char EmptyString)
     (snd (PagesToUrls.main "zhihu/pages" "zhihu/urls"
             (Some [PagesToUrls.TCat "cat"
                      [PagesToUrls.CFile "a.html"
                         [NElem "a" [("target", "_blank");
                                     ("data-za-detail-view-element_name", "Title");
                                     ("href", "//zhuanlan.zhihu.com/p/1")] []]]]))) /\
  exists merged,
    "https://zhuanlan.zhihu.com/p/1" +s+ String "010"%char EmptyString = write_urls merged /\
    NoDup merged /\
    (forall u, In u merged -> u <> EmptyString /\ strip u = u /\ startswith u "//" = false) /\
    ((forall u, In u merged -> has_newline u = false) ->
     read_urls_from_file (file_lines ("https://zhuanlan.zhihu.com/p/1" +s+ String "010"%char EmptyString))
       = merged).
Proof.
  assert (H : In ("zhihu/urls/cat.txt", "https://zhuanlan.zhihu.com/p/1" +s+ String "010"%char EmptyString)
     (snd (PagesToUrls.main "zhihu/pages" "zhihu/urls"
             (Some [PagesToUrls.TCat "cat"
                      [PagesToUrls.CFile "a.html"
                         [NElem "a" [("target", "_blank");
                                     ("data-za-detail-view-element_name", "Title");
                                     ("href", "//zhuanlan.zhihu.com/p/1")] []]]]))))
    by (vm_compute; left; reflexivity).
  split; [exact H | exact (pages_main_files_read_back _ _ _ _ _ H)].
Defined.
